(** * ATM-Project: the account ledger and cash-pool engine of [atm.py]

    A shallow embedding of [src/atm.py] and the properties of its
    authentication, money-movement and administration operations.

    Modelling choices.
    - Python integers are unbounded: amounts, balances and the machine's
      cash are [Z] (the 64-bit range of an SQLite INTEGER column is not
      modelled).
    - The [accounts] table has [account_no] as PRIMARY KEY: it is a finite
      map from account numbers to the remaining six columns.  The
      [transactions] table is the list of its rows in insertion order (the
      AUTOINCREMENT id is the position; the [date] column, a wall-clock
      reading, is left out).  The single row of the [atm] table is its
      [total_cash] column.
    - The text typed at an [input()] prompt that the program feeds to
      [int()] is represented by what [int()] makes of it: [Some n], or
      [None] when it raises [ValueError].  Card numbers, account numbers
      and PINs stay strings, as the program compares them.
    - The methods return [None] and report through [print]; an operation of
      the model returns the new state and the message it printed last.
    - The log file is the list of the entries written to it. *)

From stdpp Require Import gmap strings list fin_maps.
From Stdlib Require Import ZArith.

Open Scope Z_scope.

(** ** Constants *)

Definition ATM_CASH_LIMIT : Z := 200000.
Definition DAILY_WITHDRAWAL_LIMIT : Z := 50000.
Definition FAST_CASH_OPTIONS : list Z := [500; 1000; 5000].

(** ** class Database *)

(** The columns of [accounts] after the key, in the order of the table. *)
Record account_row := mk_row {
  r_name : string;
  r_card_no : string;
  r_pin : string;
  r_balance : Z;
  r_blocked : Z;
  r_failed_attempts : Z
}.

Record transaction := mk_transaction {
  t_account_no : string;
  t_type : string;
  t_amount : Z;
  t_details : string
}.

Record Database := mk_db {
  accounts : gmap string account_row;
  transactions : list transaction;
  total_cash : Z
}.

(** The keyword arguments [update_account] is called with. *)
Inductive kwarg :=
| kw_pin (v : string)
| kw_blocked (v : Z)
| kw_failed_attempts (v : Z).

Definition set_column (r : account_row) (k : kwarg) : account_row :=
  match k with
  | kw_pin v =>
      mk_row (r_name r) (r_card_no r) v (r_balance r) (r_blocked r) (r_failed_attempts r)
  | kw_blocked v =>
      mk_row (r_name r) (r_card_no r) (r_pin r) (r_balance r) v (r_failed_attempts r)
  | kw_failed_attempts v =>
      mk_row (r_name r) (r_card_no r) (r_pin r) (r_balance r) (r_blocked r) v
  end.

Definition set_balance (v : Z) (r : account_row) : account_row :=
  mk_row (r_name r) (r_card_no r) (r_pin r) v (r_blocked r) (r_failed_attempts r).

(** [SELECT * FROM accounts WHERE card_no = ?] then [fetchone()]: the key
    and the columns of a row with that card number, if there is one
    ([card_no] is UNIQUE, so no second row has it). *)
Definition get_account_by_card (d : Database) (card : string)
  : option (string * account_row) :=
  head (filter (λ kr, r_card_no kr.2 = card) (map_to_list (accounts d))).

Definition get_account_by_no (d : Database) (no : string)
  : option (string * account_row) :=
  r ← accounts d !! no; Some (no, r).

(** [UPDATE accounts SET k1 = ?, ... WHERE account_no = ?]: nothing happens
    when no row has that key. *)
Definition update_account (d : Database) (no : string) (kwargs : list kwarg)
  : Database :=
  mk_db (alter (λ r, foldl set_column r kwargs) no (accounts d))
        (transactions d) (total_cash d).

Definition add_transaction (d : Database) (no type_ : string) (amount : Z)
    (details : string) : Database :=
  mk_db (accounts d)
        (transactions d ++ [mk_transaction no type_ amount details])
        (total_cash d).

Definition get_balance (d : Database) (no : string) : option Z :=
  r_balance <$> accounts d !! no.

Definition update_balance (d : Database) (no : string) (new_balance : Z)
  : Database :=
  mk_db (alter (set_balance new_balance) no (accounts d))
        (transactions d) (total_cash d).

Definition get_atm_cash (d : Database) : Z := total_cash d.

Definition update_atm_cash (d : Database) (new_cash : Z) : Database :=
  mk_db (accounts d) (transactions d) new_cash.

(** ** class Logger *)

Inductive log_entry :=
| log_card_not_found (card : string)
| log_blocked_login (card : string)
| log_card_blocked (card : string)
| log_pin_changed (no : string)
| log_admin_loaded (amount : Z)
| log_transaction (no type_ : string) (amount : Z) (details : string).

(** ** class Account *)

(** The object keeps its own copy of the row it was built from. *)
Record Account := mk_account {
  account_no : string;
  name : string;
  card_no : string;
  pin : string;
  balance : Z;
  blocked : Z;
  failed_attempts : Z
}.

Definition Account_init (kr : string * account_row) : Account :=
  mk_account kr.1 (r_name kr.2) (r_card_no kr.2) (r_pin kr.2)
             (r_balance kr.2) (r_blocked kr.2) (r_failed_attempts kr.2).

Definition with_balance (a : Account) (v : Z) : Account :=
  mk_account (account_no a) (name a) (card_no a) (pin a) v
             (blocked a) (failed_attempts a).

Definition with_pin (a : Account) (v : string) : Account :=
  mk_account (account_no a) (name a) (card_no a) v (balance a)
             (blocked a) (failed_attempts a).

(** ** class ATM *)

Record ATM := mk_atm {
  db : Database;
  logfile : list log_entry;
  current_account : option Account
}.

Definition with_db (st : ATM) (d : Database) : ATM :=
  mk_atm d (logfile st) (current_account st).

Definition with_log (st : ATM) (e : log_entry) : ATM :=
  mk_atm (db st) (logfile st ++ [e]) (current_account st).

Definition with_account (st : ATM) (a : option Account) : ATM :=
  mk_atm (db st) (logfile st) a.

(** What the program prints last before a method returns. *)
Inductive message :=
| NoAccountLoggedIn        (* No account is currently logged in. *)
| InvalidAmountText        (* Invalid amount. *)
| AmountMustBePositive     (* Amount must be positive. *)
| InsufficientBalance      (* Insufficient balance. *)
| ExceedsDailyLimit        (* Exceeds daily withdrawal limit of ... *)
| AtmNotEnoughCash         (* ATM does not have enough cash. *)
| AtmCannotAccept          (* ATM cannot accept this much cash. ... *)
| ExceedsAtmCashLimit      (* Exceeds ATM cash limit. *)
| TargetNotFound           (* Target account not found. *)
| InvalidOption            (* Invalid option. *)
| IncorrectCurrentPin      (* Incorrect current PIN. *)
| PinsDoNotMatch           (* PINs do not match. *)
| PinChanged               (* PIN changed successfully. *)
| Withdrawn (amount new_balance : Z)
| Deposited (amount new_balance : Z)
| Transferred (amount : Z) (target : string) (new_balance : Z)
| Loaded (amount new_total : Z).

(** How [authenticate] ends. *)
Inductive auth_outcome :=
| CardNotFound       (* Card not found.; returns False *)
| CardBlocked        (* This card is blocked ...; returns False *)
| Authenticated      (* returns True *)
| BlockedAfterFailures (* Card blocked after 3 failed attempts.; returns False *)
| AttemptsUsedUp.    (* the loop ran out; returns False *)

Definition auth_returns (o : auth_outcome) : bool :=
  match o with Authenticated => true | _ => false end.

(** Truth value of an integer column in an [if]. *)
Definition truthy (z : Z) : bool := negb (z =? 0).

(** The body of [for attempt in range(3)]; [pin_at k] is what is typed at
    the prompt of attempt [k].  [row] is the row read before the loop: the
    loop never reads it again. *)
Fixpoint auth_loop (attempts : list nat) (pin_at : nat → string)
    (card : string) (row : string * account_row) (st : ATM)
  : ATM * auth_outcome :=
  match attempts with
  | [] => (st, AttemptsUsedUp)
  | attempt :: rest =>
      if decide (pin_at attempt = r_pin row.2) then
        let d := update_account (db st) row.1 [kw_failed_attempts 0] in
        (with_account (with_db st d) (Some (Account_init row)), Authenticated)
      else
        let d := update_account (db st) row.1
                   [kw_failed_attempts (r_failed_attempts row.2 + 1)] in
        if decide (3 ≤ r_failed_attempts row.2 + 1) then
          let d := update_account d row.1 [kw_blocked 1] in
          (with_log (with_db st d) (log_card_blocked card), BlockedAfterFailures)
        else auth_loop rest pin_at card row (with_db st d)
  end.

Definition authenticate (st : ATM) (card : string) (pin_at : nat → string)
  : ATM * auth_outcome :=
  match get_account_by_card (db st) card with
  | None => (with_log st (log_card_not_found card), CardNotFound)
  | Some row =>
      if truthy (r_blocked row.2) then
        (with_log st (log_blocked_login card), CardBlocked)
      else auth_loop (seq 0 3) pin_at card row st
  end.

(** [withdraw_cash]; [typed] is the amount typed, after [int()]. *)
Definition withdraw_cash (st : ATM) (typed : option Z) : ATM * message :=
  match current_account st with
  | None => (st, NoAccountLoggedIn)
  | Some acct =>
      match typed with
      | None => (st, InvalidAmountText)
      | Some amount =>
          if decide (amount ≤ 0) then (st, AmountMustBePositive)
          else if decide (amount > balance acct) then (st, InsufficientBalance)
          else if decide (amount > DAILY_WITHDRAWAL_LIMIT) then (st, ExceedsDailyLimit)
          else
            let atm_cash := get_atm_cash (db st) in
            if decide (amount > atm_cash) then (st, AtmNotEnoughCash)
            else
              let new_balance := balance acct - amount in
              let d := update_balance (db st) (account_no acct) new_balance in
              let d := update_atm_cash d (atm_cash - amount) in
              let d := add_transaction d (account_no acct) "Withdraw" amount "" in
              (mk_atm d
                 (logfile st ++ [log_transaction (account_no acct) "Withdraw" amount ""])
                 (Some (with_balance acct new_balance)),
               Withdrawn amount new_balance)
      end
  end.

Definition deposit_cash (st : ATM) (typed : option Z) : ATM * message :=
  match current_account st with
  | None => (st, NoAccountLoggedIn)
  | Some acct =>
      match typed with
      | None => (st, InvalidAmountText)
      | Some amount =>
          if decide (amount ≤ 0) then (st, AmountMustBePositive)
          else
            let atm_cash := get_atm_cash (db st) in
            if decide (atm_cash + amount > ATM_CASH_LIMIT) then (st, AtmCannotAccept)
            else
              let new_balance := balance acct + amount in
              let d := update_balance (db st) (account_no acct) new_balance in
              let d := update_atm_cash d (atm_cash + amount) in
              let d := add_transaction d (account_no acct) "Deposit" amount "" in
              (mk_atm d
                 (logfile st ++ [log_transaction (account_no acct) "Deposit" amount ""])
                 (Some (with_balance acct new_balance)),
               Deposited amount new_balance)
      end
  end.

(** [transfer_funds]: the target row is read first, the amount is asked
    for only when the target exists. *)
Definition transfer_funds (st : ATM) (target_acc : string) (typed : option Z)
  : ATM * message :=
  match current_account st with
  | None => (st, NoAccountLoggedIn)
  | Some acct =>
      match get_account_by_no (db st) target_acc with
      | None => (st, TargetNotFound)
      | Some target_row =>
          match typed with
          | None => (st, InvalidAmountText)
          | Some amount =>
              if decide (amount ≤ 0) then (st, AmountMustBePositive)
              else if decide (amount > balance acct) then (st, InsufficientBalance)
              else
                let new_balance := balance acct - amount in
                let target_balance := r_balance target_row.2 + amount in
                let d := update_balance (db st) (account_no acct) new_balance in
                let d := update_balance d target_acc target_balance in
                let d := add_transaction d (account_no acct) "Transfer Out" amount
                           ("To " +:+ target_acc) in
                let d := add_transaction d target_acc "Transfer In" amount
                           ("From " +:+ account_no acct) in
                (mk_atm d
                   (logfile st ++
                      [log_transaction (account_no acct) "Transfer Out" amount
                         ("To " +:+ target_acc);
                       log_transaction target_acc "Transfer In" amount
                         ("From " +:+ account_no acct)])
                   (Some (with_balance acct new_balance)),
                 Transferred amount target_acc new_balance)
          end
      end
  end.

(** [l[i]] on a Python list: a negative index counts from the end, an
    index outside [-len(l) .. len(l)-1] raises [IndexError] ([None]). *)
Definition py_getitem {A} (l : list A) (i : Z) : option A :=
  let n := Z.of_nat (length l) in
  if decide (0 ≤ i) then l !! Z.to_nat i
  else if decide (- n ≤ i) then l !! Z.to_nat (n + i)
  else None.

Definition withdraw_cash_amount (st : ATM) (amount : Z) : ATM * message :=
  match current_account st with
  | None => (st, NoAccountLoggedIn)
  | Some acct =>
      if decide (amount > balance acct) then (st, InsufficientBalance)
      else if decide (amount > DAILY_WITHDRAWAL_LIMIT) then (st, ExceedsDailyLimit)
      else
        let atm_cash := get_atm_cash (db st) in
        if decide (amount > atm_cash) then (st, AtmNotEnoughCash)
        else
          let new_balance := balance acct - amount in
          let d := update_balance (db st) (account_no acct) new_balance in
          let d := update_atm_cash d (atm_cash - amount) in
          let d := add_transaction d (account_no acct) "Fast Cash" amount "" in
          (mk_atm d
             (logfile st ++ [log_transaction (account_no acct) "Fast Cash" amount ""])
             (Some (with_balance acct new_balance)),
           Withdrawn amount new_balance)
  end.

(** [fast_cash]; [typed] is the option typed, after [int()]. *)
Definition fast_cash (st : ATM) (typed : option Z) : ATM * message :=
  match current_account st with
  | None => (st, NoAccountLoggedIn)
  | Some _ =>
      match typed with
      | None => (st, InvalidOption)
      | Some choice =>
          let idx := choice - 1 in
          match py_getitem FAST_CASH_OPTIONS idx with
          | None => (st, InvalidOption)
          | Some amount => withdraw_cash_amount st amount
          end
      end
  end.

Definition load_cash (st : ATM) (typed : option Z) : ATM * message :=
  match typed with
  | None => (st, InvalidAmountText)
  | Some amount =>
      if decide (amount ≤ 0) then (st, AmountMustBePositive)
      else
        let atm_cash := get_atm_cash (db st) in
        if decide (atm_cash + amount > ATM_CASH_LIMIT) then (st, ExceedsAtmCashLimit)
        else
          (with_log (with_db st (update_atm_cash (db st) (atm_cash + amount)))
                    (log_admin_loaded amount),
           Loaded amount (atm_cash + amount))
  end.

(** [Account.change_pin], called from the main menu on
    [self.current_account]; the account object shares the machine's
    database and log file.  The new PIN and its confirmation are asked for
    only after the current PIN matched. *)
Definition change_pin (st : ATM) (old_pin new_pin confirm_pin : string)
  : ATM * message :=
  match current_account st with
  | None => (st, NoAccountLoggedIn)
  | Some self =>
      if decide (old_pin ≠ pin self) then (st, IncorrectCurrentPin)
      else if decide (new_pin ≠ confirm_pin) then (st, PinsDoNotMatch)
      else
        let d := update_account (db st) (account_no self) [kw_pin new_pin] in
        (mk_atm d (logfile st ++ [log_pin_changed (account_no self)])
                (Some (with_pin self new_pin)),
         PinChanged)
  end.

(** Choice 9 of the main menu. *)
Definition logout (st : ATM) : ATM := with_account st None.

(** ** Sequences of operations *)

Inductive operation :=
| OpAuthenticate (card : string) (pin_at : nat → string)
| OpWithdraw (typed : option Z)
| OpDeposit (typed : option Z)
| OpTransfer (target_acc : string) (typed : option Z)
| OpFastCash (typed : option Z)
| OpChangePin (old_pin new_pin confirm_pin : string)
| OpLogout
| OpLoadCash (typed : option Z).

Definition step (st : ATM) (o : operation) : ATM :=
  match o with
  | OpAuthenticate card pin_at => (authenticate st card pin_at).1
  | OpWithdraw typed => (withdraw_cash st typed).1
  | OpDeposit typed => (deposit_cash st typed).1
  | OpTransfer target_acc typed => (transfer_funds st target_acc typed).1
  | OpFastCash typed => (fast_cash st typed).1
  | OpChangePin o n c => (change_pin st o n c).1
  | OpLogout => logout st
  | OpLoadCash typed => (load_cash st typed).1
  end.

(** The states reached after each operation of a sequence, in order. *)
Fixpoint trace (st : ATM) (ops : list operation) : list ATM :=
  match ops with
  | [] => []
  | o :: rest => step st o :: trace (step st o) rest
  end.

(** ** A sample database: the two accounts the program seeds *)

Definition alice : account_row := mk_row "Alice" "1234567890" "1111" 100000 0 0.
Definition bob : account_row := mk_row "Bob" "9876543210" "2222" 50000 0 0.

Definition sample_db : Database :=
  mk_db (<["1001" := alice]> (<["1002" := bob]> ∅)) [] ATM_CASH_LIMIT.

Definition sample_atm : ATM := mk_atm sample_db [] None.

Definition wrong_pin (_ : nat) : string := "0000".

Definition alice_session : ATM :=
  (authenticate sample_atm "1234567890" (λ _, "1111")).1.

Definition bob_session : ATM :=
  (authenticate sample_atm "9876543210" (λ _, "2222")).1.

(** * Properties *)

Arguments update_account : simpl never.
Arguments update_balance : simpl never.
Arguments update_atm_cash : simpl never.
Arguments add_transaction : simpl never.

(** ** The database operations *)

Section database_facts.
Implicit Types (d : Database) (no : string) (v : Z).

Lemma update_balance_same d no v :
  accounts (update_balance d no v) !! no = set_balance v <$> accounts d !! no.
Proof. apply lookup_alter_eq. Qed.

Lemma update_balance_other d no no' v :
  no ≠ no' → accounts (update_balance d no v) !! no' = accounts d !! no'.
Proof. intros. by apply lookup_alter_ne. Qed.

Lemma get_balance_update_same d no v b :
  get_balance d no = Some b → get_balance (update_balance d no v) no = Some v.
Proof.
  unfold get_balance. rewrite update_balance_same.
  destruct (accounts d !! no); naive_solver.
Qed.

Lemma get_balance_update_other d no no' v :
  no ≠ no' → get_balance (update_balance d no v) no' = get_balance d no'.
Proof. intros. unfold get_balance. by rewrite update_balance_other. Qed.

Lemma set_columns_balance (kwargs : list kwarg) (r : account_row) :
  r_balance (foldl set_column r kwargs) = r_balance r.
Proof.
  revert r. induction kwargs as [|k kwargs IH]; intros r; [done|].
  simpl. rewrite IH. by destruct k.
Qed.

Lemma update_account_row d no (r : account_row) (k : kwarg) :
  accounts d !! no = Some r →
  accounts (update_account d no [k]) !! no = Some (set_column r k).
Proof. intros Hr. unfold update_account. cbn. by rewrite lookup_alter_eq, Hr. Qed.

(** [fetchone()] on the card query hands out a row of the table. *)
Lemma get_account_by_card_Some d card no (r : account_row) :
  get_account_by_card d card = Some (no, r) →
  accounts d !! no = Some r ∧ r_card_no r = card.
Proof.
  unfold get_account_by_card. intros Hhead.
  apply head_Some_elem_of in Hhead.
  apply list_elem_of_filter in Hhead as [Hc Hin].
  by apply elem_of_map_to_list in Hin.
Qed.

Lemma get_account_by_no_Some d no (kr : string * account_row) :
  get_account_by_no d no = Some kr ↔ kr.1 = no ∧ accounts d !! no = Some kr.2.
Proof.
  unfold get_account_by_no. destruct kr as [k r]; simpl.
  destruct (accounts d !! no) as [r'|]; simpl; split.
  - by intros [= <- <-].
  - by intros [-> [= ->]].
  - done.
  - by intros [_ ?].
Qed.
End database_facts.

(** ** The invariant of the balances and of the cash in the machine *)

Definition balances_nonneg (st : ATM) : Prop :=
  map_Forall (λ _ r, 0 ≤ r_balance r) (accounts (db st)) ∧
  (∀ a, current_account st = Some a → 0 ≤ balance a).

Definition cash_in_range (st : ATM) : Prop :=
  0 ≤ total_cash (db st) ≤ ATM_CASH_LIMIT.

Definition engine_invariant (st : ATM) : Prop :=
  balances_nonneg st ∧ cash_in_range st.

Section invariant.
Implicit Types (st : ATM) (m : gmap string account_row).

Lemma rows_nonneg_alter m (f : account_row → account_row) no :
  map_Forall (λ _ r, 0 ≤ r_balance r) m →
  (∀ r, m !! no = Some r → 0 ≤ r_balance (f r)) →
  map_Forall (λ _ r, 0 ≤ r_balance r) (alter f no m).
Proof.
  intros Hm Hf k r [[-> (x & Hx & ->)]|[_ Hk]]%lookup_alter_Some.
  - by apply Hf.
  - by apply (Hm k).
Qed.

Lemma rows_nonneg_update_balance (d : Database) no v :
  map_Forall (λ _ r, 0 ≤ r_balance r) (accounts d) → 0 ≤ v →
  map_Forall (λ _ r, 0 ≤ r_balance r) (accounts (update_balance d no v)).
Proof. intros. by apply rows_nonneg_alter. Qed.

Lemma rows_nonneg_update_account (d : Database) no kwargs :
  map_Forall (λ _ r, 0 ≤ r_balance r) (accounts d) →
  map_Forall (λ _ r, 0 ≤ r_balance r) (accounts (update_account d no kwargs)).
Proof.
  intros Hd. apply rows_nonneg_alter; [done|].
  intros r Hr. rewrite set_columns_balance. by apply (Hd no).
Qed.

Lemma engine_invariant_intro (d : Database) lg (a : option Account) :
  map_Forall (λ _ r, 0 ≤ r_balance r) (accounts d) →
  (∀ x, a = Some x → 0 ≤ balance x) →
  0 ≤ total_cash d ≤ ATM_CASH_LIMIT →
  engine_invariant (mk_atm d lg a).
Proof. by intros; split; [split|]. Qed.

Lemma auth_loop_invariant attempts pin_at card row st :
  0 ≤ r_balance row.2 → engine_invariant st →
  engine_invariant (auth_loop attempts pin_at card row st).1.
Proof.
  intros Hrow. revert st.
  induction attempts as [|k rest IH]; intros st Hst; simpl; [done|].
  destruct Hst as [[Hrows Hacct] Hcash].
  repeat case_decide; simpl.
  - apply engine_invariant_intro; [|by intros a [= <-]|done].
    by apply rows_nonneg_update_account.
  - apply engine_invariant_intro; [|done..].
    by do 2 apply rows_nonneg_update_account.
  - apply IH, engine_invariant_intro; [|done..].
    by apply rows_nonneg_update_account.
Qed.

Lemma authenticate_invariant st card pin_at :
  engine_invariant st → engine_invariant (authenticate st card pin_at).1.
Proof.
  intros Hst. unfold authenticate.
  destruct (get_account_by_card (db st) card) as [[no r]|] eqn:Hget; [|done].
  destruct (truthy _); [done|].
  apply auth_loop_invariant; [|done].
  apply get_account_by_card_Some in Hget as [Hr _].
  destruct Hst as [[Hrows _] _]. by apply (Hrows no).
Qed.

Lemma withdraw_cash_invariant st typed :
  engine_invariant st → engine_invariant (withdraw_cash st typed).1.
Proof.
  intros Hst. unfold withdraw_cash.
  destruct (current_account st) as [acct|] eqn:Ha; [|done].
  destruct typed as [amount|]; [|done].
  repeat case_decide; try done.
  destruct Hst as [[Hrows Hacct] Hcash]. unfold cash_in_range, get_atm_cash in *.
  apply engine_invariant_intro; simpl; [| |lia].
  - apply rows_nonneg_update_balance; [done|lia].
  - intros a [= <-]. simpl. lia.
Qed.

Lemma withdraw_cash_amount_invariant st amount :
  0 < amount → engine_invariant st →
  engine_invariant (withdraw_cash_amount st amount).1.
Proof.
  intros Hpos Hst. unfold withdraw_cash_amount.
  destruct (current_account st) as [acct|] eqn:Ha; [|done].
  repeat case_decide; try done.
  destruct Hst as [[Hrows Hacct] Hcash]. unfold cash_in_range, get_atm_cash in *.
  apply engine_invariant_intro; simpl; [| |lia].
  - apply rows_nonneg_update_balance; [done|lia].
  - intros a [= <-]. simpl. lia.
Qed.

Lemma deposit_cash_invariant st typed :
  engine_invariant st → engine_invariant (deposit_cash st typed).1.
Proof.
  intros Hst. unfold deposit_cash.
  destruct (current_account st) as [acct|] eqn:Ha; [|done].
  destruct typed as [amount|]; [|done].
  repeat case_decide; try done.
  destruct Hst as [[Hrows Hacct] Hcash]. unfold cash_in_range, get_atm_cash in *.
  specialize (Hacct _ Ha).
  apply engine_invariant_intro; simpl; [| |lia].
  - apply rows_nonneg_update_balance; [done|lia].
  - intros a [= <-]. simpl. lia.
Qed.

Lemma transfer_funds_invariant st target_acc typed :
  engine_invariant st → engine_invariant (transfer_funds st target_acc typed).1.
Proof.
  intros Hst. unfold transfer_funds.
  destruct (current_account st) as [acct|] eqn:Ha; [|done].
  destruct (get_account_by_no (db st) target_acc) as [[no r]|] eqn:Hget; [|done].
  destruct typed as [amount|]; [|done].
  repeat case_decide; try done.
  apply get_account_by_no_Some in Hget as [_ Hr]. simpl in Hr.
  destruct Hst as [[Hrows Hacct] Hcash]. unfold cash_in_range in *.
  pose proof (Hrows _ _ Hr) as Hr0. simpl in Hr0.
  apply engine_invariant_intro; simpl; [| |done].
  - apply (rows_nonneg_update_balance
             (update_balance (db st) (account_no acct) (balance acct - amount))
             target_acc); [|lia].
    apply rows_nonneg_update_balance; [done|lia].
  - intros a [= <-]. simpl. lia.
Qed.

(** Every preset amount is positive, whichever index picks it. *)
Lemma fast_cash_options_positive (i : Z) (amount : Z) :
  py_getitem FAST_CASH_OPTIONS i = Some amount → 0 < amount.
Proof.
  unfold py_getitem. intros Hget.
  assert (amount ∈ FAST_CASH_OPTIONS) as Hin.
  { do 2 (case_decide; [by eapply list_elem_of_lookup_2|]). done. }
  unfold FAST_CASH_OPTIONS in Hin.
  repeat (apply elem_of_cons in Hin as [->|Hin]; [lia|]).
  by apply elem_of_nil in Hin.
Qed.

Lemma fast_cash_invariant st typed :
  engine_invariant st → engine_invariant (fast_cash st typed).1.
Proof.
  intros Hst. unfold fast_cash.
  destruct (current_account st) as [acct|] eqn:Ha; [|done].
  destruct typed as [choice|]; [|done].
  destruct (py_getitem _ _) as [amount|] eqn:Hget; [|done].
  apply withdraw_cash_amount_invariant; [|done].
  by eapply fast_cash_options_positive.
Qed.

Lemma load_cash_invariant st typed :
  engine_invariant st → engine_invariant (load_cash st typed).1.
Proof.
  intros Hst. unfold load_cash.
  destruct typed as [amount|]; [|done].
  repeat case_decide; try done.
  destruct Hst as [[Hrows Hacct] Hcash]. unfold cash_in_range, get_atm_cash in *.
  apply engine_invariant_intro; simpl; [done..|lia].
Qed.

Lemma change_pin_invariant st old_pin new_pin confirm_pin :
  engine_invariant st →
  engine_invariant (change_pin st old_pin new_pin confirm_pin).1.
Proof.
  intros Hst. unfold change_pin.
  destruct (current_account st) as [self|] eqn:Ha; [|done].
  repeat case_decide; try done.
  destruct Hst as [[Hrows Hacct] Hcash].
  apply engine_invariant_intro; cbn; [| |done].
  - by apply rows_nonneg_update_account.
  - intros a [= <-]. simpl. by apply Hacct.
Qed.

Lemma logout_invariant st : engine_invariant st → engine_invariant (logout st).
Proof. intros [[Hrows _] Hcash]. by apply engine_invariant_intro. Qed.

Lemma step_invariant st o : engine_invariant st → engine_invariant (step st o).
Proof.
  destruct o; simpl;
    eauto using authenticate_invariant, withdraw_cash_invariant,
      deposit_cash_invariant, transfer_funds_invariant, fast_cash_invariant,
      change_pin_invariant, logout_invariant, load_cash_invariant.
Qed.
End invariant.

(** ** Withdrawals, deposits and cash loading *)

Section money_movement.
Implicit Types (st : ATM) (acct : Account) (amount : Z).

(** With an account logged in, [withdraw_cash] checks, in this order,
    that the amount is positive (else "Amount must be positive."), that
    it does not exceed the balance of the account object (else
    "Insufficient balance."), that it does not exceed
    [DAILY_WITHDRAWAL_LIMIT] (else "Exceeds daily withdrawal limit") and
    that the machine holds as much (else "ATM does not have enough
    cash."); the first check that fails decides the message and the state
    is returned as it was.  When all pass, the balance of the account
    object and the machine's cash both go down by the amount, the row of
    the account gets the object's new balance whatever it held, so that
    the stored balance goes down by the amount when the two agreed, no
    other row changes, one "Withdraw" transaction of that amount for that
    account is appended, and the new balance is reported. *)
Lemma withdraw_cash_checks_in_order st acct amount :
  current_account st = Some acct →
  let r := withdraw_cash st (Some amount) in
  (amount ≤ 0 → r = (st, AmountMustBePositive)) ∧
  (0 < amount → amount > balance acct → r = (st, InsufficientBalance)) ∧
  (0 < amount ≤ balance acct → amount > DAILY_WITHDRAWAL_LIMIT →
     r = (st, ExceedsDailyLimit)) ∧
  (0 < amount ≤ balance acct → amount ≤ DAILY_WITHDRAWAL_LIMIT →
     amount > total_cash (db st) → r = (st, AtmNotEnoughCash)) ∧
  (0 < amount ≤ balance acct → amount ≤ DAILY_WITHDRAWAL_LIMIT →
     amount ≤ total_cash (db st) →
     r.2 = Withdrawn amount (balance acct - amount) ∧
     current_account r.1 =
       Some (mk_account (account_no acct) (name acct) (card_no acct) (pin acct)
                        (balance acct - amount) (blocked acct)
                        (failed_attempts acct)) ∧
     (∀ b, get_balance (db st) (account_no acct) = Some b →
           get_balance (db r.1) (account_no acct) = Some (balance acct - amount) ∧
           (b = balance acct →
            get_balance (db r.1) (account_no acct) = Some (b - amount))) ∧
     (∀ no, no ≠ account_no acct →
            accounts (db r.1) !! no = accounts (db st) !! no) ∧
     total_cash (db r.1) = total_cash (db st) - amount ∧
     transactions (db r.1) =
       transactions (db st) ++
         [mk_transaction (account_no acct) "Withdraw" amount ""]).
Proof.
  intros Ha r. subst r. unfold withdraw_cash, get_atm_cash. rewrite Ha.
  split_and!; intros; repeat case_decide; try lia; try done.
  split_and!; try done.
  - intros b Hb.
    assert (get_balance
              (update_balance (db st) (account_no acct) (balance acct - amount))
              (account_no acct) = Some (balance acct - amount)) as Hnew
      by by eapply get_balance_update_same.
    split; [exact Hnew|]. intros ->. exact Hnew.
  - intros no Hno. by apply (update_balance_other (db st)).
Qed.

(** With an account logged in, [deposit_cash] answers "Amount must be
    positive." for an amount that is not, and "ATM cannot accept this
    much cash." when the machine's cash plus the amount would exceed
    [ATM_CASH_LIMIT], the state staying as it was.  Every other amount,
    however large against [DAILY_WITHDRAWAL_LIMIT], is accepted: the
    balance of the account object and the machine's cash both go up by
    the amount, the row of the account gets the object's new balance
    whatever it held, so that the stored balance goes up by the amount
    when the two agreed, no other row changes, one "Deposit" transaction
    is appended and the new balance is reported. *)
Lemma deposit_cash_checks_and_effects st acct amount :
  current_account st = Some acct →
  let r := deposit_cash st (Some amount) in
  (amount ≤ 0 → r = (st, AmountMustBePositive)) ∧
  (0 < amount → total_cash (db st) + amount > ATM_CASH_LIMIT →
     r = (st, AtmCannotAccept)) ∧
  (0 < amount → total_cash (db st) + amount ≤ ATM_CASH_LIMIT →
     r.2 = Deposited amount (balance acct + amount) ∧
     current_account r.1 =
       Some (mk_account (account_no acct) (name acct) (card_no acct) (pin acct)
                        (balance acct + amount) (blocked acct)
                        (failed_attempts acct)) ∧
     (∀ b, get_balance (db st) (account_no acct) = Some b →
           get_balance (db r.1) (account_no acct) = Some (balance acct + amount) ∧
           (b = balance acct →
            get_balance (db r.1) (account_no acct) = Some (b + amount))) ∧
     (∀ no, no ≠ account_no acct →
            accounts (db r.1) !! no = accounts (db st) !! no) ∧
     total_cash (db r.1) = total_cash (db st) + amount ∧
     transactions (db r.1) =
       transactions (db st) ++
         [mk_transaction (account_no acct) "Deposit" amount ""]).
Proof.
  intros Ha r. subst r. unfold deposit_cash, get_atm_cash. rewrite Ha.
  split_and!; intros; repeat case_decide; try lia; try done.
  split_and!; try done.
  - intros b Hb.
    assert (get_balance
              (update_balance (db st) (account_no acct) (balance acct + amount))
              (account_no acct) = Some (balance acct + amount)) as Hnew
      by by eapply get_balance_update_same.
    split; [exact Hnew|]. intros ->. exact Hnew.
  - intros no Hno. by apply (update_balance_other (db st)).
Qed.

(** C9. When [load_cash] accepts an amount (positive, and the machine's
    cash plus the amount within [ATM_CASH_LIMIT]), the machine's cash
    goes up by the amount and nothing else in the database moves: the
    accounts table, the transactions table and the logged-in account are
    the same; the only other trace is one line in the log file. *)
Theorem C9_load_cash_touches_only_the_cash st amount :
  0 < amount → total_cash (db st) + amount ≤ ATM_CASH_LIMIT →
  let r := load_cash st (Some amount) in
  r.2 = Loaded amount (total_cash (db st) + amount) ∧
  total_cash (db r.1) = total_cash (db st) + amount ∧
  accounts (db r.1) = accounts (db st) ∧
  transactions (db r.1) = transactions (db st) ∧
  current_account r.1 = current_account st ∧
  logfile r.1 = logfile st ++ [log_admin_loaded amount].
Proof.
  intros Hpos Hroom r. subst r. unfold load_cash, get_atm_cash.
  repeat case_decide; try lia. done.
Qed.

(** C8. [change_pin] on the logged-in account returns the state as it
    was when the PIN typed as current is not the account's PIN
    ("Incorrect current PIN.") or when the new PIN and its confirmation
    differ ("PINs do not match.").  Otherwise the row of the account has
    the new PIN and every other column as before, the failed-attempt
    counter included, and no other row changes; the PIN of the account
    object is the new PIN and its other fields, the failed-attempt
    counter included, are as before; the transactions table and the
    machine's cash stay the same; one line goes to the log file. *)
Theorem C8_change_pin_effects st acct (old_pin new_pin confirm_pin : string) :
  current_account st = Some acct →
  let r := change_pin st old_pin new_pin confirm_pin in
  (old_pin ≠ pin acct → r = (st, IncorrectCurrentPin)) ∧
  (old_pin = pin acct → new_pin ≠ confirm_pin → r = (st, PinsDoNotMatch)) ∧
  (old_pin = pin acct → new_pin = confirm_pin →
     r.2 = PinChanged ∧
     (∀ row, accounts (db st) !! account_no acct = Some row →
        accounts (db r.1) !! account_no acct
          = Some (mk_row (r_name row) (r_card_no row) new_pin (r_balance row)
                         (r_blocked row) (r_failed_attempts row))) ∧
     (∀ no, no ≠ account_no acct →
            accounts (db r.1) !! no = accounts (db st) !! no) ∧
     current_account r.1 =
       Some (mk_account (account_no acct) (name acct) (card_no acct) new_pin
                        (balance acct) (blocked acct) (failed_attempts acct)) ∧
     (∃ a, current_account r.1 = Some a ∧ pin a = new_pin ∧
           failed_attempts a = failed_attempts acct ∧
           balance a = balance acct ∧ account_no a = account_no acct) ∧
     transactions (db r.1) = transactions (db st) ∧
     total_cash (db r.1) = total_cash (db st) ∧
     logfile r.1 = logfile st ++ [log_pin_changed (account_no acct)]).
Proof.
  intros Ha r. subst r. unfold change_pin. rewrite Ha.
  split; [|split]; intros; repeat case_decide; try done.
  split_and!; try done.
  - intros row Hrow. cbn [fst db].
    by rewrite (update_account_row (db st) (account_no acct) row (kw_pin new_pin)).
  - intros no Hno. cbn [fst db]. unfold update_account. cbn.
    by rewrite lookup_alter_ne.
  - by eexists.
Qed.
End money_movement.

(** ** Transfers *)

Section transfers.
Implicit Types (st : ATM) (acct : Account) (amount : Z).

(** What an accepted transfer does to the database and to the account
    object. *)
Lemma transfer_funds_accepted st acct target_acc (row : account_row) amount :
  current_account st = Some acct →
  accounts (db st) !! target_acc = Some row →
  0 < amount ≤ balance acct →
  transfer_funds st target_acc (Some amount) =
    (mk_atm
       (add_transaction
          (add_transaction
             (update_balance
                (update_balance (db st) (account_no acct) (balance acct - amount))
                target_acc (r_balance row + amount))
             (account_no acct) "Transfer Out" amount ("To " +:+ target_acc))
          target_acc "Transfer In" amount ("From " +:+ account_no acct))
       (logfile st ++
          [log_transaction (account_no acct) "Transfer Out" amount
             ("To " +:+ target_acc);
           log_transaction target_acc "Transfer In" amount
             ("From " +:+ account_no acct)])
       (Some (with_balance acct (balance acct - amount))),
     Transferred amount target_acc (balance acct - amount)).
Proof.
  intros Ha Hrow Hamount. unfold transfer_funds, get_account_by_no.
  rewrite Ha, Hrow. simpl. repeat case_decide; try lia. done.
Qed.

(** X26. Between two different accounts, with the account object
    agreeing with its row, a transfer moves the amount from one stored
    balance to the other and leaves the machine's cash alone. *)
Lemma transfer_funds_between_two_accounts st acct target_acc
    (row : account_row) amount :
  current_account st = Some acct →
  get_balance (db st) (account_no acct) = Some (balance acct) →
  accounts (db st) !! target_acc = Some row →
  target_acc ≠ account_no acct →
  0 < amount ≤ balance acct →
  let st' := (transfer_funds st target_acc (Some amount)).1 in
  get_balance (db st') (account_no acct) = Some (balance acct - amount) ∧
  get_balance (db st') target_acc = Some (r_balance row + amount) ∧
  total_cash (db st') = total_cash (db st).
Proof.
  intros Ha Hsync Hrow Hne Hamount st'. subst st'.
  rewrite (transfer_funds_accepted st acct target_acc row) by done.
  cbn. split; [|split; [|done]].
  - change (get_balance
              (update_balance
                 (update_balance (db st) (account_no acct) (balance acct - amount))
                 target_acc (r_balance row + amount)) (account_no acct)
            = Some (balance acct - amount)).
    rewrite get_balance_update_other by done.
    by eapply get_balance_update_same.
  - change (get_balance
              (update_balance
                 (update_balance (db st) (account_no acct) (balance acct - amount))
                 target_acc (r_balance row + amount)) target_acc
            = Some (r_balance row + amount)).
    unfold get_balance. rewrite update_balance_same, update_balance_other by done.
    by rewrite Hrow.
Qed.

(** C10. [transfer_funds] never looks at the [blocked] column of the
    target: whenever the target account number has a row, whatever that
    row holds, and the amount is positive and within the balance of the
    logged-in account, the transfer is reported as done and the stored
    balance of the target is its former stored balance plus the amount. *)
Theorem C10_transfer_ignores_blocked_target st acct target_acc
    (row : account_row) amount :
  current_account st = Some acct →
  accounts (db st) !! target_acc = Some row →
  0 < amount ≤ balance acct →
  let r := transfer_funds st target_acc (Some amount) in
  r.2 = Transferred amount target_acc (balance acct - amount) ∧
  get_balance (db r.1) target_acc = Some (r_balance row + amount).
Proof.
  intros Ha Hrow Hamount r. subst r.
  rewrite (transfer_funds_accepted st acct target_acc row) by done.
  split; [done|]. cbn.
  change (get_balance
            (update_balance
               (update_balance (db st) (account_no acct) (balance acct - amount))
               target_acc (r_balance row + amount)) target_acc
          = Some (r_balance row + amount)).
  unfold get_balance. rewrite update_balance_same.
  unfold update_balance at 1. cbn. rewrite lookup_alter.
  case_decide as Hsame; [rewrite Hsame|]; by rewrite Hrow.
Qed.
End transfers.

(** ** The withdrawal limit *)

Section withdrawal_limit.
Implicit Types (st : ATM) (acct : Account) (amount : Z).

Lemma withdraw_cash_accepted st acct amount :
  current_account st = Some acct →
  0 < amount ≤ balance acct →
  amount ≤ DAILY_WITHDRAWAL_LIMIT →
  amount ≤ total_cash (db st) →
  withdraw_cash st (Some amount) =
    (mk_atm
       (add_transaction
          (update_atm_cash
             (update_balance (db st) (account_no acct) (balance acct - amount))
             (total_cash (db st) - amount))
          (account_no acct) "Withdraw" amount "")
       (logfile st ++ [log_transaction (account_no acct) "Withdraw" amount ""])
       (Some (with_balance acct (balance acct - amount))),
     Withdrawn amount (balance acct - amount)).
Proof.
  intros Ha Hamount Hlimit Hcash. unfold withdraw_cash, get_atm_cash.
  rewrite Ha. repeat case_decide; try lia. done.
Qed.

(** A withdrawal is reported as done only when every check passed. *)
Lemma withdraw_cash_reported st acct amount (a b : Z) :
  current_account st = Some acct →
  (withdraw_cash st (Some amount)).2 = Withdrawn a b →
  0 < amount ≤ balance acct ∧ amount ≤ DAILY_WITHDRAWAL_LIMIT ∧
  amount ≤ total_cash (db st) ∧ a = amount ∧ b = balance acct - amount.
Proof.
  intros Ha. unfold withdraw_cash, get_atm_cash. rewrite Ha.
  repeat case_decide; try discriminate. intros [= <- <-]. lia.
Qed.

(** C7.  The limit is checked on each call, never on a running total:
    after a withdrawal of exactly [DAILY_WITHDRAWAL_LIMIT] was accepted, a
    second withdrawal of a positive amount is judged on the remaining
    balance, on the limit for one call and on the cash left in the
    machine, in that order; it is refused for the limit only when its own
    amount exceeds the limit, so no positive amount up to the limit is
    ever refused for it. *)
Theorem C7_limit_checked_per_call st acct amount new_balance :
  current_account st = Some acct →
  (withdraw_cash st (Some DAILY_WITHDRAWAL_LIMIT)).2
    = Withdrawn DAILY_WITHDRAWAL_LIMIT new_balance →
  0 < amount →
  let st1 := (withdraw_cash st (Some DAILY_WITHDRAWAL_LIMIT)).1 in
  let r := withdraw_cash st1 (Some amount) in
  new_balance = balance acct - DAILY_WITHDRAWAL_LIMIT ∧
  total_cash (db st1) = total_cash (db st) - DAILY_WITHDRAWAL_LIMIT ∧
  (amount ≤ DAILY_WITHDRAWAL_LIMIT → r.2 ≠ ExceedsDailyLimit) ∧
  (amount > new_balance → r = (st1, InsufficientBalance)) ∧
  (amount ≤ new_balance → amount > DAILY_WITHDRAWAL_LIMIT →
     r = (st1, ExceedsDailyLimit)) ∧
  (amount ≤ new_balance → amount ≤ DAILY_WITHDRAWAL_LIMIT →
     amount > total_cash (db st1) → r = (st1, AtmNotEnoughCash)) ∧
  (amount ≤ new_balance → amount ≤ DAILY_WITHDRAWAL_LIMIT →
     amount ≤ total_cash (db st1) →
     r.2 = Withdrawn amount (new_balance - amount)).
Proof.
  intros Ha Hfirst Hpos st1 r. subst r st1.
  apply (withdraw_cash_reported st acct) in Hfirst
    as (Hamount & _ & Hcash & _ & ->); [|done].
  rewrite (withdraw_cash_accepted st acct) by (done || lia).
  unfold withdraw_cash, get_atm_cash. cbn.
  repeat split; intros; repeat case_decide; try lia; try done.
Qed.
End withdrawal_limit.

(** ** Fast cash *)

Section fast_cash_options.
Implicit Types (st : ATM) (acct : Account).

(** The choices that [FAST_CASH_OPTIONS[int(choice) - 1]] accepts are
    -2 .. 3: the three on the menu and, through negative indices, 0, -1
    and -2. *)
Lemma fast_cash_index (choice : Z) :
  py_getitem FAST_CASH_OPTIONS (choice - 1) =
    if decide (choice = 1 ∨ choice = -2) then Some 500
    else if decide (choice = 2 ∨ choice = -1) then Some 1000
    else if decide (choice = 3 ∨ choice = 0) then Some 5000
    else None.
Proof.
  unfold py_getitem, FAST_CASH_OPTIONS. simpl length.
  destruct (decide (choice < -2)); [repeat case_decide; lia || done|].
  destruct (decide (3 < choice)).
  { rewrite decide_True by lia.
    rewrite lookup_ge_None_2 by (simpl; lia). repeat case_decide; lia || done. }
  assert (choice = -2 ∨ choice = -1 ∨ choice = 0 ∨
          choice = 1 ∨ choice = 2 ∨ choice = 3) as Hc by lia.
  destruct Hc as [-> | [-> | [-> | [-> | [-> | ->]]]]]; reflexivity.
Qed.

(** X25. A choice below -2 or above 3, or one that is not a number, is
    answered "Invalid option." and changes nothing. *)
Lemma fast_cash_rejected st acct (typed : option Z) :
  current_account st = Some acct →
  (∀ choice, typed = Some choice → choice < -2 ∨ 3 < choice) →
  fast_cash st typed = (st, InvalidOption).
Proof.
  intros Ha Hout. unfold fast_cash. rewrite Ha.
  destruct typed as [choice|]; [|done].
  rewrite fast_cash_index. destruct (Hout choice eq_refl);
    repeat case_decide; lia || done.
Qed.
End fast_cash_options.

(** ** Authentication *)

Section authentication.
Implicit Types (st : ATM) (row : string * account_row).

Lemma update_failed_attempts_twice (d : Database) (no : string) (v w : Z) :
  update_account (update_account d no [kw_failed_attempts v]) no
                 [kw_failed_attempts w]
  = update_account d no [kw_failed_attempts w].
Proof.
  unfold update_account. cbn. f_equal.
  rewrite alter_alter_eq. by apply alter_ext.
Qed.

Lemma db_with_db st (d : Database) : db (with_db st d) = d.
Proof. done. Qed.

Lemma with_db_with_db st (d d' : Database) :
  with_db (with_db st d) d' = with_db st d'.
Proof. done. Qed.

(** Every mismatch writes the counter read before the loop plus one:
    as long as that is below 3, any number of wrong PINs in one call
    leaves the counter at that value, blocks nothing and uses up the
    attempts. *)
Lemma auth_loop_wrong_pins attempts pin_at card row st :
  attempts ≠ [] →
  (∀ k, k ∈ attempts → pin_at k ≠ r_pin row.2) →
  r_failed_attempts row.2 + 1 < 3 →
  auth_loop attempts pin_at card row st =
    (with_db st (update_account (db st) row.1
                   [kw_failed_attempts (r_failed_attempts row.2 + 1)]),
     AttemptsUsedUp).
Proof.
  intros Hne Hwrong Hlow. revert st.
  induction attempts as [|k rest IH]; intros st; [done|]. simpl.
  rewrite decide_False by (apply Hwrong; left).
  rewrite decide_False by lia.
  destruct rest as [|k' rest']; [done|].
  rewrite IH; [|done|by intros j Hj; apply Hwrong; right].
  by rewrite with_db_with_db, db_with_db, update_failed_attempts_twice.
Qed.

(** When the counter read before the loop is already 2 or more, the
    first wrong PIN blocks the card. *)
Lemma auth_loop_blocks attempt rest pin_at card row st :
  pin_at attempt ≠ r_pin row.2 →
  3 ≤ r_failed_attempts row.2 + 1 →
  auth_loop (attempt :: rest) pin_at card row st =
    (with_log
       (with_db st
          (update_account
             (update_account (db st) row.1
                [kw_failed_attempts (r_failed_attempts row.2 + 1)])
             row.1 [kw_blocked 1]))
       (log_card_blocked card),
     BlockedAfterFailures).
Proof.
  intros Hwrong Hhigh. simpl.
  rewrite decide_False by done. by rewrite decide_True by lia.
Qed.

(** The right PIN, typed after wrong ones that did not block, sets the
    counter to 0 and logs the account in; nothing is blocked. *)
Lemma auth_loop_right_pin before attempt rest pin_at card row st :
  (∀ k, k ∈ before → pin_at k ≠ r_pin row.2) →
  pin_at attempt = r_pin row.2 →
  r_failed_attempts row.2 + 1 < 3 →
  auth_loop (before ++ attempt :: rest) pin_at card row st =
    (with_account
       (with_db st (update_account (db st) row.1 [kw_failed_attempts 0]))
       (Some (Account_init row)),
     Authenticated).
Proof.
  intros Hwrong Hright Hlow. revert st.
  induction before as [|k before IH]; intros st; simpl.
  - by rewrite decide_True by done.
  - rewrite decide_False by (apply Hwrong; left).
    rewrite decide_False by lia.
    rewrite IH by (intros j Hj; apply Hwrong; by right).
    by rewrite with_db_with_db, db_with_db, update_failed_attempts_twice.
Qed.
End authentication.

(** ** Sequences of operations *)

(** C3. From a state in which every stored balance and the balance of
    the logged-in account, if any, are at least 0 and the machine's cash is
    between 0 and [ATM_CASH_LIMIT], every state reached along any sequence
    of operations (logging in and out, withdrawing, depositing,
    transferring, fast cash, changing the PIN, loading cash) is again such
    a state. *)
Theorem C3_balances_and_cash_stay_in_range (st : ATM) (ops : list operation) :
  balances_nonneg st → cash_in_range st →
  Forall (λ st', balances_nonneg st' ∧ cash_in_range st') (trace st ops).
Proof.
  intros Hbal Hcash. assert (engine_invariant st) as Hst by done.
  clear Hbal Hcash. revert st Hst.
  induction ops as [|o ops IH]; intros st Hst; simpl; [constructor|].
  pose proof (step_invariant st o Hst) as Hstep.
  constructor; [exact Hstep|by apply IH].
Qed.

(** ** The program on its sample data *)

Definition alice_account : Account :=
  mk_account "1001" "Alice" "1234567890" "1111" 100000 0 0.

(** Alice after two withdrawals of 50000: balance 0, 100000 left in the
    machine. *)
Definition alice_emptied : ATM :=
  (withdraw_cash (withdraw_cash alice_session (Some 50000)).1 (Some 50000)).1.

(** Bob sends his 50000 to Alice and leaves; Alice logs in with 150000. *)
Definition alice_richer : ATM :=
  (authenticate
     (logout (transfer_funds bob_session "1001" (Some 50000)).1)
     "1234567890" (λ _, "1111")).1.

(** Three calls of [authenticate] on Bob's card, a wrong PIN each time. *)
Definition bob_locked_out : ATM :=
  (authenticate
     (authenticate
        (authenticate sample_atm "9876543210" wrong_pin).1
        "9876543210" wrong_pin).1
     "9876543210" wrong_pin).1.

Example alice_session_account : current_account alice_session = Some alice_account.
Proof. vm_compute. reflexivity. Qed.

Example alice_richer_account :
  current_account alice_richer =
    Some (mk_account "1001" "Alice" "1234567890" "1111" 150000 0 0).
Proof. vm_compute. reflexivity. Qed.

Example bob_locked_out_row :
  accounts (db bob_locked_out) !! "1002"
    = Some (mk_row "Bob" "9876543210" "2222" 50000 1 3).
Proof. vm_compute. reflexivity. Qed.

Example bob_locked_out_refused :
  (authenticate bob_locked_out "9876543210" (λ _, "2222")).2 = CardBlocked.
Proof. vm_compute. reflexivity. Qed.

(** Scenarios of the specification, section 8. *)
Example scenario_withdraw_at_the_limit :
  let r := withdraw_cash alice_session (Some 50000) in
  r.2 = Withdrawn 50000 50000 ∧ total_cash (db r.1) = 150000 ∧
  (withdraw_cash r.1 (Some 1)).2 = Withdrawn 1 49999.
Proof. vm_compute. done. Qed.

Example scenario_deposit_over_capacity :
  let st := mk_atm (mk_db (accounts sample_db) [] 190000) [] (Some alice_account) in
  deposit_cash st (Some 60000) = (st, AtmCannotAccept).
Proof. vm_compute. reflexivity. Qed.

Example scenario_transfer :
  let st := (withdraw_cash alice_session (Some 50000)).1 in
  let r := transfer_funds st "1002" (Some 30000) in
  r.2 = Transferred 30000 "1002" 20000 ∧
  get_balance (db r.1) "1001" = Some 20000 ∧
  get_balance (db r.1) "1002" = Some 80000 ∧
  total_cash (db r.1) = total_cash (db st) ∧
  length (transactions (db r.1)) = S (S (length (transactions (db st)))).
Proof. vm_compute. done. Qed.

(** C1.  On the sample data, three wrong PINs in one call of
    [authenticate] on Alice's card, which starts unblocked with a counter
    of 0: the call returns False out of the loop, the row has [blocked]
    still 0 and [failed_attempts] 1, not 3. *)
Theorem C1_three_wrong_pins_in_one_call :
  let r := authenticate sample_atm "1234567890" wrong_pin in
  r_blocked alice = 0 ∧ r_failed_attempts alice = 0 ∧
  (∀ attempt, wrong_pin attempt ≠ r_pin alice) ∧
  r.2 = AttemptsUsedUp ∧ auth_returns r.2 = false ∧
  accounts (db r.1) !! "1001"
    = Some (mk_row "Alice" "1234567890" "1111" 100000 0 1).
Proof. vm_compute. repeat split; discriminate || done. Qed.

(** C2.  On the sample data, Alice, logged in with 100000, transfers
    30000 to her own account number: the transfer is reported as done, her
    stored balance becomes 130000 while the account object holds 70000;
    the sum of the source's and the target's stored balances went from
    200000 to 260000.  The machine's cash is unchanged. *)
Theorem C2_transfer_to_own_account :
  let st := alice_session in
  let r := transfer_funds st "1001" (Some 30000) in
  account_no <$> current_account st = Some "1001" ∧
  get_balance (db st) "1001" = Some 100000 ∧
  r.2 = Transferred 30000 "1001" 70000 ∧
  get_balance (db r.1) "1001" = Some 130000 ∧
  balance <$> current_account r.1 = Some 70000 ∧
  total_cash (db r.1) = total_cash (db st).
Proof. vm_compute. done. Qed.

(** C5.  On the sample data, Alice types 0 at the fast-cash menu, which
    offers 1, 2 and 3: the index -1 picks the last preset, 5000 is
    withdrawn from her balance and from the machine and a "Fast Cash"
    transaction is recorded.  -1 and -2 are accepted the same way. *)
Theorem C5_fast_cash_choice_zero :
  let st := alice_session in
  let r := fast_cash st (Some 0) in
  r.2 = Withdrawn 5000 95000 ∧
  get_balance (db st) "1001" = Some 100000 ∧
  get_balance (db r.1) "1001" = Some 95000 ∧
  total_cash (db st) = 200000 ∧ total_cash (db r.1) = 195000 ∧
  transactions (db r.1) = [mk_transaction "1001" "Fast Cash" 5000 ""] ∧
  (fast_cash st (Some (-1))).2 = Withdrawn 1000 99000 ∧
  (fast_cash st (Some (-2))).2 = Withdrawn 500 99500.
Proof. vm_compute. done. Qed.

(** Alice logs in, withdraws 50000 and transfers 30000 to her own
    account number: her row holds 80000, the account object 20000, the
    machine 150000. *)
Definition alice_after_paying_herself : ATM :=
  (transfer_funds (withdraw_cash alice_session (Some 50000)).1
                  "1001" (Some 30000)).1.

(** C4.  On the sample data, after Alice withdrew 50000 and transferred
    30000 to her own account number, she withdraws 1000: every check
    passes and the withdrawal is reported with a new balance of 19000; the
    machine's cash goes down by 1000, from 150000 to 149000, and one
    "Withdraw" transaction of 1000 is appended; her stored balance, 80000
    before, is 19000 after: it went down by 61000, not by 1000. *)
Theorem C4_withdrawal_after_transfer_to_self :
  let st := alice_after_paying_herself in
  let r := withdraw_cash st (Some 1000) in
  balance <$> current_account st = Some 20000 ∧
  get_balance (db st) "1001" = Some 80000 ∧
  total_cash (db st) = 150000 ∧
  r.2 = Withdrawn 1000 19000 ∧
  get_balance (db r.1) "1001" = Some 19000 ∧
  balance <$> current_account r.1 = Some 19000 ∧
  total_cash (db r.1) = 149000 ∧
  transactions (db r.1)
    = transactions (db st) ++ [mk_transaction "1001" "Withdraw" 1000 ""].
Proof. vm_compute. done. Qed.

(** C6.  On the sample data, after Alice withdrew 50000 and transferred
    30000 to her own account number, she deposits 1000: the deposit is
    accepted and reported with a new balance of 21000; the machine's cash
    goes up by 1000, from 150000 to 151000, and one "Deposit" transaction
    of 1000 is appended; her stored balance, 80000 before, is 21000 after:
    the deposit lowered it by 59000. *)
Theorem C6_deposit_after_transfer_to_self :
  let st := alice_after_paying_herself in
  let r := deposit_cash st (Some 1000) in
  balance <$> current_account st = Some 20000 ∧
  get_balance (db st) "1001" = Some 80000 ∧
  total_cash (db st) = 150000 ∧
  r.2 = Deposited 1000 21000 ∧
  get_balance (db r.1) "1001" = Some 21000 ∧
  balance <$> current_account r.1 = Some 21000 ∧
  total_cash (db r.1) = 151000 ∧
  transactions (db r.1)
    = transactions (db st) ++ [mk_transaction "1001" "Deposit" 1000 ""].
Proof. vm_compute. done. Qed.

(** C7 does not extend to every positive second amount: a second
    withdrawal whose own amount exceeds the limit is refused for the limit.
    Alice, with 150000, withdraws 50000 and then asks for 50001. *)
Lemma C7_second_withdrawal_refused_for_the_limit :
  ¬ (∀ (st : ATM) (amount new_balance : Z),
       (withdraw_cash st (Some DAILY_WITHDRAWAL_LIMIT)).2
         = Withdrawn DAILY_WITHDRAWAL_LIMIT new_balance →
       0 < amount →
       (withdraw_cash (withdraw_cash st (Some DAILY_WITHDRAWAL_LIMIT)).1
                      (Some amount)).2 ≠ ExceedsDailyLimit).
Proof.
  intros Hclaim.
  apply (Hclaim alice_richer 50001 100000); [vm_compute; reflexivity|lia|].
  vm_compute. reflexivity.
Qed.

(** ** The theorems at work on the sample data *)

Definition alice_meets_locked_bob : ATM :=
  (authenticate bob_locked_out "1234567890" (λ _, "1111")).1.

Lemma C3_sample_run :
  Forall (λ st', balances_nonneg st' ∧ cash_in_range st')
    (trace sample_atm
       [OpAuthenticate "1234567890" (λ _, "1111");
        OpFastCash (Some 0);
        OpTransfer "1001" (Some 30000);
        OpWithdraw (Some 50000);
        OpDeposit (Some 70000);
        OpLogout;
        OpLoadCash (Some 5000)]).
Proof.
  apply (C3_balances_and_cash_stay_in_range sample_atm).
  - split; [|done].
    apply map_Forall_insert_2; [simpl; lia|].
    apply map_Forall_insert_2; [simpl; lia|].
    apply map_Forall_empty.
  - unfold cash_in_range. simpl. unfold ATM_CASH_LIMIT. lia.
Defined.

Example sample_withdrawal :
  (withdraw_cash alice_session (Some 20000)).2 = Withdrawn 20000 80000 ∧
  get_balance (db (withdraw_cash alice_session (Some 20000)).1) "1001"
    = Some 80000 ∧
  total_cash (db (withdraw_cash alice_session (Some 20000)).1) = 180000 ∧
  withdraw_cash alice_session (Some 60000) = (alice_session, ExceedsDailyLimit).
Proof.
  pose proof (withdraw_cash_checks_in_order alice_session alice_account 20000
                alice_session_account) as (_ & _ & _ & _ & Hok).
  pose proof (withdraw_cash_checks_in_order alice_session alice_account 60000
                alice_session_account) as (_ & _ & Hlimit & _).
  destruct Hok as (Hmsg & _ & Hrow & _ & Hcash & _);
    [simpl; lia|unfold DAILY_WITHDRAWAL_LIMIT; lia|vm_compute; discriminate|].
  split; [exact Hmsg|].
  split; [apply (Hrow 100000); vm_compute; reflexivity|].
  split; [exact Hcash|].
  apply Hlimit; [simpl; lia|unfold DAILY_WITHDRAWAL_LIMIT; lia].
Qed.

Example sample_deposit :
  (deposit_cash alice_emptied (Some 60000)).2 = Deposited 60000 60000 ∧
  get_balance (db (deposit_cash alice_emptied (Some 60000)).1) "1001"
    = Some 60000 ∧
  total_cash (db (deposit_cash alice_emptied (Some 60000)).1) = 160000.
Proof.
  assert (current_account alice_emptied = Some (with_balance alice_account 0))
    as Ha by (vm_compute; reflexivity).
  pose proof (deposit_cash_checks_and_effects alice_emptied _ 60000 Ha)
    as (_ & _ & Hok).
  destruct Hok as (Hmsg & _ & Hrow & _ & Hcash & _);
    [lia|vm_compute; discriminate|].
  split; [exact Hmsg|].
  split; [apply (Hrow 0); vm_compute; reflexivity|exact Hcash].
Qed.

Lemma C7_sample_second_withdrawal :
  (withdraw_cash (withdraw_cash alice_session (Some DAILY_WITHDRAWAL_LIMIT)).1
                 (Some 1)).2 = Withdrawn 1 49999.
Proof.
  pose proof (C7_limit_checked_per_call alice_session alice_account 1 50000
                alice_session_account) as Hsecond.
  destruct Hsecond as (_ & _ & _ & _ & _ & _ & Hok);
    [vm_compute; reflexivity|lia|].
  apply Hok; [lia|unfold DAILY_WITHDRAWAL_LIMIT; lia|vm_compute; discriminate].
Defined.

Lemma C8_sample_pin_change :
  (change_pin alice_session "1111" "4321" "4321").2 = PinChanged ∧
  accounts (db (change_pin alice_session "1111" "4321" "4321").1) !! "1001"
    = Some (mk_row "Alice" "1234567890" "4321" 100000 0 0) ∧
  current_account (change_pin alice_session "1111" "4321" "4321").1
    = Some (mk_account "1001" "Alice" "1234567890" "4321" 100000 0 0) ∧
  transactions (db (change_pin alice_session "1111" "4321" "4321").1) = [] ∧
  change_pin alice_session "1234" "4321" "4321"
    = (alice_session, IncorrectCurrentPin) ∧
  change_pin alice_session "1111" "4321" "4312" = (alice_session, PinsDoNotMatch).
Proof.
  pose proof (C8_change_pin_effects alice_session alice_account "1111" "4321" "4321"
                alice_session_account) as (_ & _ & Hok).
  pose proof (C8_change_pin_effects alice_session alice_account "1234" "4321" "4321"
                alice_session_account) as (Hold & _).
  pose proof (C8_change_pin_effects alice_session alice_account "1111" "4321" "4312"
                alice_session_account) as (_ & Hnew & _).
  destruct Hok as (Hmsg & Hrow & _ & Hacct & _ & Htrans & _); [done|done|].
  split; [exact Hmsg|].
  split; [apply (Hrow alice); vm_compute; reflexivity|].
  split; [exact Hacct|].
  split; [rewrite Htrans; vm_compute; reflexivity|].
  split; [by apply Hold|by apply Hnew].
Defined.

Lemma C9_sample_load :
  (load_cash alice_emptied (Some 50000)).2 = Loaded 50000 150000 ∧
  accounts (db (load_cash alice_emptied (Some 50000)).1) = accounts (db alice_emptied) ∧
  transactions (db (load_cash alice_emptied (Some 50000)).1)
    = transactions (db alice_emptied).
Proof.
  pose proof (C9_load_cash_touches_only_the_cash alice_emptied 50000) as Hload.
  destruct Hload as (Hmsg & _ & Haccounts & Htransactions & _);
    [lia|vm_compute; discriminate|].
  split; [exact Hmsg|]. split; [exact Haccounts|exact Htransactions].
Defined.

Lemma C10_sample_transfer_to_locked_account :
  r_blocked <$> accounts (db alice_meets_locked_bob) !! "1002" = Some 1 ∧
  (transfer_funds alice_meets_locked_bob "1002" (Some 1000)).2
    = Transferred 1000 "1002" 99000 ∧
  get_balance (db (transfer_funds alice_meets_locked_bob "1002" (Some 1000)).1) "1002"
    = Some 51000.
Proof.
  split; [vm_compute; reflexivity|].
  apply (C10_transfer_ignores_blocked_target alice_meets_locked_bob alice_account
           "1002" (mk_row "Bob" "9876543210" "2222" 50000 1 3) 1000).
  - vm_compute. reflexivity.
  - vm_compute. reflexivity.
  - simpl. lia.
Defined.

(** * The rest of the program *)

(** ** Creating accounts and the demo data *)

(** [Database()] on a fresh file: [create_tables] makes the three tables
    and sets the machine's cash to [ATM_CASH_LIMIT]. *)
Definition new_database : Database := mk_db ∅ [] ATM_CASH_LIMIT.

(** [add_account]: the INSERT leaves [blocked] and [failed_attempts] at
    their default 0.  It raises [sqlite3.IntegrityError] ([None]) when the
    account number (PRIMARY KEY) or the card number (UNIQUE) is taken. *)
Definition add_account (d : Database) (no holder card secret : string)
    (opening : Z) : option Database :=
  if decide (is_Some (accounts d !! no)) then None
  else if decide (is_Some (get_account_by_card d card)) then None
  else Some (mk_db (<[no := mk_row holder card secret opening 0 0]> (accounts d))
                   (transactions d) (total_cash d)).

(** The two guarded inserts under [if __name__ == "__main__"]. *)
Definition populate (d : Database) : option Database :=
  d1 ← (if decide (is_Some (get_account_by_card d "1234567890")) then Some d
        else add_account d "1001" "Alice" "1234567890" "1111" 100000);
  if decide (is_Some (get_account_by_card d1 "9876543210")) then Some d1
  else add_account d1 "1002" "Bob" "9876543210" "2222" 50000.

(** ** Notions used below *)

(** No two rows share a card number (the UNIQUE constraint on [card_no]). *)
Definition cards_unique (d : Database) : Prop :=
  ∀ no1 no2 r1 r2,
    accounts d !! no1 = Some r1 → accounts d !! no2 = Some r2 →
    r_card_no r1 = r_card_no r2 → no1 = no2.

(** The account object agrees with the row it was built from on the
    columns the program keeps in both places. *)
Definition in_sync (st : ATM) : Prop :=
  ∀ a, current_account st = Some a →
    ∃ row, accounts (db st) !! account_no a = Some row ∧
           r_balance row = balance a ∧ r_pin row = pin a ∧
           r_card_no row = card_no a.

(** The sum of the stored balances. *)
Definition total_balances (m : gmap string account_row) : Z :=
  map_fold (λ _ r acc, r_balance r + acc) 0 m.

(** A transfer whose target is the account that is logged in. *)
Definition transfers_to_self (st : ATM) (o : operation) : Prop :=
  match o with
  | OpTransfer target_acc _ =>
      account_no <$> current_account st = Some target_acc
  | _ => False
  end.

(** The transaction types the program writes. *)
Definition transaction_types : list string :=
  ["Withdraw"; "Deposit"; "Transfer Out"; "Transfer In"; "Fast Cash"].

Definition well_formed_transaction (t : transaction) : Prop :=
  0 < t_amount t ∧ t_type t ∈ transaction_types.

(** The state after a whole sequence of operations. *)
Definition run_operations (st : ATM) (ops : list operation) : ATM :=
  foldl step st ops.

(** ** Looking rows up by card *)

Section card_lookup.
Implicit Types (d : Database) (no card : string) (r : account_row).

Lemma get_account_by_card_is_Some d card :
  is_Some (get_account_by_card d card) ↔
  ∃ no r, accounts d !! no = Some r ∧ r_card_no r = card.
Proof.
  split.
  - intros [[no r] Hget]. exists no, r. by apply get_account_by_card_Some.
  - intros (no & r & Hr & Hcard). unfold get_account_by_card.
    destruct (filter _ _) as [|kr l] eqn:Hfilter; [|by eexists].
    exfalso. eapply (filter_nil_not_elem_of _ _ (no, r)); [done|done|].
    by apply elem_of_map_to_list.
Qed.

Lemma get_account_by_card_unique d no r :
  cards_unique d → accounts d !! no = Some r →
  get_account_by_card d (r_card_no r) = Some (no, r).
Proof.
  intros Huniq Hr.
  destruct (get_account_by_card d (r_card_no r)) as [[no' r']|] eqn:Hget.
  - apply get_account_by_card_Some in Hget as [Hr' Hcard].
    assert (no' = no) as -> by by eapply Huniq.
    by simplify_eq.
  - assert (is_Some (get_account_by_card d (r_card_no r))) as [? ?];
      [|congruence].
    apply get_account_by_card_is_Some. by exists no, r.
Qed.

Lemma get_account_by_card_None d card no r :
  get_account_by_card d card = None → accounts d !! no = Some r →
  r_card_no r ≠ card.
Proof.
  intros Hnone Hr Hcard.
  assert (is_Some (get_account_by_card d card)) as [? ?]; [|congruence].
  apply get_account_by_card_is_Some. by exists no, r.
Qed.
End card_lookup.

(** ** What no operation does to the accounts table *)

(** How a row may differ from an earlier version of itself: the holder
    and the card number are the same, and a blocked row is still blocked. *)
Definition row_evolves (r r' : account_row) : Prop :=
  r_name r' = r_name r ∧ r_card_no r' = r_card_no r ∧
  (r_blocked r ≠ 0 → r_blocked r' ≠ 0).

Definition rows_evolve (m m' : gmap string account_row) : Prop :=
  ∀ no, match m !! no, m' !! no with
        | Some r, Some r' => row_evolves r r'
        | None, None => True
        | _, _ => False
        end.

Section rows.
Implicit Types (st : ATM) (m : gmap string account_row) (r : account_row).

Lemma rows_evolve_refl m : rows_evolve m m.
Proof. intros no. by destruct (m !! no). Qed.

Lemma rows_evolve_trans m1 m2 m3 :
  rows_evolve m1 m2 → rows_evolve m2 m3 → rows_evolve m1 m3.
Proof.
  intros H12 H23 no. specialize (H12 no). specialize (H23 no).
  destruct (m1 !! no), (m2 !! no), (m3 !! no); try done.
  destruct H12 as (? & ? & ?), H23 as (? & ? & ?).
  split; [congruence|]. split; [congruence|auto].
Qed.

Lemma rows_evolve_alter m (f : account_row → account_row) no :
  (∀ r, row_evolves r (f r)) → rows_evolve m (alter f no m).
Proof.
  intros Hf k. rewrite lookup_alter. case_decide as Hk.
  - subst k. destruct (m !! no); simpl; [apply Hf|done].
  - by destruct (m !! k).
Qed.

Lemma row_evolves_set_balance v r : row_evolves r (set_balance v r).
Proof. done. Qed.

Lemma row_evolves_set_column r (k : kwarg) :
  (∀ v, k = kw_blocked v → v ≠ 0) → row_evolves r (set_column r k).
Proof. intros Hk. destruct k; try done. repeat split. intros _. by apply Hk. Qed.

Lemma rows_evolve_update_balance (d : Database) no v :
  rows_evolve (accounts d) (accounts (update_balance d no v)).
Proof. apply rows_evolve_alter, row_evolves_set_balance. Qed.

Lemma rows_evolve_update_column (d : Database) no (k : kwarg) :
  (∀ v, k = kw_blocked v → v ≠ 0) →
  rows_evolve (accounts d) (accounts (update_account d no [k])).
Proof. intros Hk. apply rows_evolve_alter. intros r. by apply row_evolves_set_column. Qed.

Lemma auth_loop_rows_evolve attempts pin_at card row st :
  rows_evolve (accounts (db st))
              (accounts (db (auth_loop attempts pin_at card row st).1)).
Proof.
  revert st. induction attempts as [|k rest IH]; intros st; cbn;
    [apply rows_evolve_refl|].
  pose proof (rows_evolve_update_column (db st) row.1
                (kw_failed_attempts (r_failed_attempts row.2 + 1)))
    as Hcount.
  repeat case_decide; cbn.
  - by apply rows_evolve_update_column.
  - eapply rows_evolve_trans; [by apply Hcount|].
    apply rows_evolve_update_column. by intros v [= <-].
  - eapply rows_evolve_trans; [by apply Hcount|].
    apply (IH (with_db st (update_account (db st) row.1
                 [kw_failed_attempts (r_failed_attempts row.2 + 1)]))).
Qed.

Lemma step_rows_evolve st o :
  rows_evolve (accounts (db st)) (accounts (db (step st o))).
Proof.
  destruct o as [card pin_at|typed|typed|target_acc typed|typed|o n c| |typed];
    simpl.
  - unfold authenticate.
    destruct (get_account_by_card _ _) as [row|]; [|apply rows_evolve_refl].
    destruct (truthy _); [apply rows_evolve_refl|apply auth_loop_rows_evolve].
  - unfold withdraw_cash.
    destruct (current_account st), typed; try apply rows_evolve_refl.
    repeat case_decide; try apply rows_evolve_refl.
    apply rows_evolve_update_balance.
  - unfold deposit_cash.
    destruct (current_account st), typed; try apply rows_evolve_refl.
    repeat case_decide; try apply rows_evolve_refl.
    apply rows_evolve_update_balance.
  - unfold transfer_funds.
    destruct (current_account st) as [acct|]; [|apply rows_evolve_refl].
    destruct (get_account_by_no _ _); [|apply rows_evolve_refl].
    destruct typed; [|apply rows_evolve_refl].
    repeat case_decide; try apply rows_evolve_refl.
    eapply rows_evolve_trans;
      [apply (rows_evolve_update_balance (db st) (account_no acct))|].
    apply rows_evolve_update_balance.
  - unfold fast_cash.
    destruct (current_account st) as [acct|] eqn:Ha, typed;
      try apply rows_evolve_refl.
    destruct (py_getitem _ _); [|apply rows_evolve_refl].
    unfold withdraw_cash_amount. rewrite Ha.
    repeat case_decide; try apply rows_evolve_refl.
    apply rows_evolve_update_balance.
  - unfold change_pin.
    destruct (current_account st); [|apply rows_evolve_refl].
    repeat case_decide; try apply rows_evolve_refl.
    by apply rows_evolve_update_column.
  - apply rows_evolve_refl.
  - unfold load_cash. destruct typed; [|apply rows_evolve_refl].
    repeat case_decide; apply rows_evolve_refl.
Qed.

Lemma run_operations_rows_evolve st ops :
  rows_evolve (accounts (db st)) (accounts (db (run_operations st ops))).
Proof.
  revert st. induction ops as [|o ops IH]; intros st; simpl;
    [apply rows_evolve_refl|].
  eapply rows_evolve_trans; [apply step_rows_evolve|apply IH].
Qed.

Lemma rows_evolve_cards_unique (d d' : Database) :
  rows_evolve (accounts d) (accounts d') → cards_unique d → cards_unique d'.
Proof.
  intros Hev Huniq no1 no2 r1 r2 H1 H2 Hcard.
  pose proof (Hev no1) as E1. pose proof (Hev no2) as E2.
  rewrite H1 in E1. rewrite H2 in E2.
  destruct (accounts d !! no1) as [q1|] eqn:Q1; [|done].
  destruct (accounts d !! no2) as [q2|] eqn:Q2; [|done].
  destruct E1 as (_ & C1 & _), E2 as (_ & C2 & _).
  apply (Huniq no1 no2 q1 q2); congruence.
Qed.

(** X1. Whatever is done at the machine, no account appears or
    disappears, and no row changes its holder or its card number. *)
Theorem accounts_are_never_created_or_renamed st (ops : list operation)
    (no : string) :
  match accounts (db st) !! no,
        accounts (db (run_operations st ops)) !! no with
  | Some r, Some r' => r_name r' = r_name r ∧ r_card_no r' = r_card_no r
  | None, None => True
  | _, _ => False
  end.
Proof.
  pose proof (run_operations_rows_evolve st ops no) as Hev.
  destruct (accounts (db st) !! no), (accounts (db (run_operations st ops)) !! no);
    try done.
  by destruct Hev as (? & ? & _).
Qed.

(** X2. A blocked card stays blocked: with card numbers unique, once a
    row is blocked, every later [authenticate] with its card, after any
    operations and whatever PINs are typed (the right one included),
    returns False with "This card is blocked" and changes nothing but the
    log file. *)
Theorem blocked_card_is_refused_for_good st (ops : list operation)
    (no : string) (row : account_row) (pin_at : nat → string) :
  cards_unique (db st) →
  accounts (db st) !! no = Some row →
  r_blocked row ≠ 0 →
  let st' := run_operations st ops in
  authenticate st' (r_card_no row) pin_at
    = (with_log st' (log_blocked_login (r_card_no row)), CardBlocked).
Proof.
  intros Huniq Hrow Hblocked st'.
  pose proof (run_operations_rows_evolve st ops) as Hev. fold st' in Hev.
  pose proof (Hev no) as Hno. rewrite Hrow in Hno.
  destruct (accounts (db st') !! no) as [row'|] eqn:Hrow'; [|done].
  destruct Hno as (_ & Hcard & Hstill).
  unfold authenticate. rewrite <- Hcard.
  rewrite (get_account_by_card_unique (db st') no row');
    [|by eapply rows_evolve_cards_unique|done].
  unfold truthy. simpl. destruct (Z.eqb_spec (r_blocked row') 0) as [Hz|_]; [|done].
  by apply Hstill in Hz.
Qed.
End rows.

(** ** Logging in *)

Section logging_in.
Implicit Types (st : ATM) (d : Database) (no card : string) (row : account_row).

Lemma update_account_lookup d no row (k : kwarg) :
  accounts d !! no = Some row →
  accounts (update_account d no [k]) !! no = Some (set_column row k).
Proof. intros Hrow. unfold update_account. cbn. by rewrite lookup_alter_eq, Hrow. Qed.

Lemma update_account_cards_unique d no (k : kwarg) :
  (∀ v, k = kw_blocked v → v ≠ 0) →
  cards_unique d → cards_unique (update_account d no [k]).
Proof.
  intros Hk. apply rows_evolve_cards_unique. by apply rows_evolve_update_column.
Qed.

Lemma authenticate_found st card no row pin_at :
  get_account_by_card (db st) card = Some (no, row) → r_blocked row = 0 →
  authenticate st card pin_at = auth_loop (seq 0 3) pin_at card (no, row) st.
Proof. intros Hget Hopen. unfold authenticate. rewrite Hget. simpl. by rewrite Hopen. Qed.

Lemma authenticate_refuses_blocked st no row pin_at :
  cards_unique (db st) → accounts (db st) !! no = Some row → r_blocked row ≠ 0 →
  authenticate st (r_card_no row) pin_at
    = (with_log st (log_blocked_login (r_card_no row)), CardBlocked).
Proof.
  intros Huniq Hrow Hblocked. unfold authenticate.
  rewrite (get_account_by_card_unique (db st) no row) by done.
  unfold truthy. simpl. by destruct (Z.eqb_spec (r_blocked row) 0).
Qed.

(** What the loop answers when it logs somebody in. *)
Lemma auth_loop_authenticated attempts pin_at card (kr : string * account_row) st :
  (auth_loop attempts pin_at card kr st).2 = Authenticated →
  (∃ k, k ∈ attempts ∧ pin_at k = r_pin kr.2) ∧
  current_account (auth_loop attempts pin_at card kr st).1
    = Some (Account_init kr).
Proof.
  revert st. induction attempts as [|k rest IH]; intros st; cbn; [done|].
  repeat case_decide; cbn; try done.
  - intros _. split; [|done]. exists k. split; [left|done].
  - intros Hrest. apply IH in Hrest as [(j & Hj & Hpin) Hacct].
    split; [|done]. exists j. split; [by right|done].
Qed.

(** X3. [authenticate] returns True only for a card that has a row, that
    is not blocked, and for which one of the (at most three) PINs typed is
    the PIN of that row; the account object it leaves is built from that
    row. *)
Theorem authenticate_needs_the_right_pin st card (pin_at : nat → string) :
  auth_returns (authenticate st card pin_at).2 = true →
  ∃ no row,
    get_account_by_card (db st) card = Some (no, row) ∧
    accounts (db st) !! no = Some row ∧ r_card_no row = card ∧
    r_blocked row = 0 ∧
    (∃ k, (k < 3)%nat ∧ pin_at k = r_pin row) ∧
    current_account (authenticate st card pin_at).1
      = Some (Account_init (no, row)).
Proof.
  unfold authenticate.
  destruct (get_account_by_card (db st) card) as [[no row]|] eqn:Hget; [|done].
  unfold truthy. cbn [snd].
  destruct (Z.eqb_spec (r_blocked row) 0) as [Hopen|]; [|done]. cbn [negb].
  intros Hret. exists no, row.
  pose proof Hget as [Hrow Hcard]%get_account_by_card_Some.
  destruct (auth_loop (seq 0 3) pin_at card (no, row) st).2 eqn:Hout; try done.
  apply auth_loop_authenticated in Hout as [(k & Hk & Hpin) Hacct].
  repeat split; try done.
  exists k. split; [|done]. apply elem_of_seq in Hk. lia.
Qed.

(** X4. One call of [authenticate] raises the stored counter by one,
    however many wrong PINs are typed: for an unblocked card with a stored
    counter below 2 and three wrong PINs, the call returns False, the row
    ends with the counter one higher and still unblocked, every other
    column as it was, and nobody is logged in by the call. *)
Theorem authenticate_counts_one_failure_per_call st card no row
    (pin_at : nat → string) :
  get_account_by_card (db st) card = Some (no, row) →
  r_blocked row = 0 →
  r_failed_attempts row < 2 →
  (∀ k, (k < 3)%nat → pin_at k ≠ r_pin row) →
  let r := authenticate st card pin_at in
  r.2 = AttemptsUsedUp ∧
  accounts (db r.1) !! no
    = Some (mk_row (r_name row) (r_card_no row) (r_pin row) (r_balance row)
                   (r_blocked row) (r_failed_attempts row + 1)) ∧
  current_account r.1 = current_account st ∧
  logfile r.1 = logfile st.
Proof.
  intros Hget Hopen Hlow Hwrong r. subst r.
  rewrite (authenticate_found st card no row) by done.
  rewrite auth_loop_wrong_pins; [|done| |simpl; lia].
  - repeat split. cbn.
    apply (update_account_lookup (db st) no row
             (kw_failed_attempts (r_failed_attempts row + 1))).
    by apply get_account_by_card_Some in Hget as [? _].
  - intros k Hk. apply Hwrong. apply elem_of_seq in Hk. lia.
Qed.

Lemma authenticate_wrong_pin_blocks st card no row (pin_at : nat → string) :
  get_account_by_card (db st) card = Some (no, row) →
  r_blocked row = 0 →
  2 ≤ r_failed_attempts row →
  pin_at 0%nat ≠ r_pin row →
  authenticate st card pin_at =
    (with_log
       (with_db st
          (update_account
             (update_account (db st) no
                [kw_failed_attempts (r_failed_attempts row + 1)])
             no [kw_blocked 1]))
       (log_card_blocked card),
     BlockedAfterFailures) ∧
  accounts
    (update_account
       (update_account (db st) no
          [kw_failed_attempts (r_failed_attempts row + 1)])
       no [kw_blocked 1]) !! no
    = Some (mk_row (r_name row) (r_card_no row) (r_pin row) (r_balance row)
                   1 (r_failed_attempts row + 1)).
Proof.
  intros Hget Hopen Hhigh Hwrong.
  rewrite (authenticate_found st card no row) by done.
  change (seq 0 3) with (0%nat :: seq 1 2).
  rewrite auth_loop_blocks by (simpl; done || lia).
  split; [done|].
  apply get_account_by_card_Some in Hget as [Hrow _].
  apply (update_account_lookup _ _ _ (kw_failed_attempts (r_failed_attempts row + 1)))
    in Hrow.
  by apply (update_account_lookup _ _ _ (kw_blocked 1)) in Hrow.
Qed.

(** X5. The card is blocked by a call that starts with a stored counter
    of 2 or more: its first wrong PIN sets [blocked] to 1 and the counter
    one higher, no further PIN is asked for, and the call returns False
    with "Card blocked after 3 failed attempts." *)
Theorem authenticate_blocks_on_stored_counter st card no row
    (pin_at : nat → string) :
  get_account_by_card (db st) card = Some (no, row) →
  r_blocked row = 0 →
  2 ≤ r_failed_attempts row →
  pin_at 0%nat ≠ r_pin row →
  let r := authenticate st card pin_at in
  r.2 = BlockedAfterFailures ∧
  accounts (db r.1) !! no
    = Some (mk_row (r_name row) (r_card_no row) (r_pin row) (r_balance row)
                   1 (r_failed_attempts row + 1)) ∧
  current_account r.1 = current_account st ∧
  logfile r.1 = logfile st ++ [log_card_blocked card].
Proof.
  intros Hget Hopen Hhigh Hwrong r. subst r.
  destruct (authenticate_wrong_pin_blocks st card no row pin_at)
    as [-> Hrow]; try done.
Qed.
End logging_in.

Section lockout.
Implicit Types (st : ATM) (d : Database) (no card : string) (row : account_row).

Lemma authenticate_all_wrong st no row pin_at :
  cards_unique (db st) → accounts (db st) !! no = Some row →
  r_blocked row = 0 → r_failed_attempts row < 2 →
  (∀ k, (k < 3)%nat → pin_at k ≠ r_pin row) →
  authenticate st (r_card_no row) pin_at =
    (with_db st (update_account (db st) no
                   [kw_failed_attempts (r_failed_attempts row + 1)]),
     AttemptsUsedUp).
Proof.
  intros Huniq Hrow Hopen Hlow Hwrong.
  rewrite (authenticate_found st _ no row);
    [|by apply get_account_by_card_unique|done].
  rewrite auth_loop_wrong_pins; [done|done| |simpl; lia].
  intros k Hk. apply Hwrong. apply elem_of_seq in Hk. lia.
Qed.

(** X6. Three calls of [authenticate] in a row on one card, each with
    only wrong PINs, block it: from an unblocked row with a counter of 0
    (card numbers being unique) the first two calls run out of attempts,
    the third ends at its first wrong PIN with the row blocked and a
    counter of 3, and from then on the card is refused even with the right
    PIN. *)
Theorem three_failed_calls_block_the_card st no row
    (p1 p2 p3 p4 : nat → string) :
  cards_unique (db st) →
  accounts (db st) !! no = Some row →
  r_blocked row = 0 → r_failed_attempts row = 0 →
  (∀ k, (k < 3)%nat → p1 k ≠ r_pin row) →
  (∀ k, (k < 3)%nat → p2 k ≠ r_pin row) →
  p3 0%nat ≠ r_pin row →
  let r1 := authenticate st (r_card_no row) p1 in
  let r2 := authenticate r1.1 (r_card_no row) p2 in
  let r3 := authenticate r2.1 (r_card_no row) p3 in
  r1.2 = AttemptsUsedUp ∧ r2.2 = AttemptsUsedUp ∧ r3.2 = BlockedAfterFailures ∧
  accounts (db r3.1) !! no
    = Some (mk_row (r_name row) (r_card_no row) (r_pin row) (r_balance row) 1 3) ∧
  (authenticate r3.1 (r_card_no row) p4).2 = CardBlocked.
Proof.
  intros Huniq Hrow Hopen Hzero H1 H2 H3 r1 r2 r3.
  (* first call *)
  assert (r1 = (with_db st (update_account (db st) no [kw_failed_attempts 1]),
                AttemptsUsedUp)) as E1.
  { subst r1. rewrite (authenticate_all_wrong st no row) by (done || lia).
    by rewrite Hzero. }
  set (row1 := set_column row (kw_failed_attempts 1)).
  set (d1 := update_account (db st) no [kw_failed_attempts 1]) in E1.
  assert (accounts d1 !! no = Some row1) as Hrow1
    by by apply update_account_lookup.
  assert (cards_unique d1) as Huniq1 by by apply update_account_cards_unique.
  (* second call *)
  assert (r2 = (with_db r1.1 (update_account d1 no [kw_failed_attempts 2]),
                AttemptsUsedUp)) as E2.
  { subst r2. rewrite E1. cbn [fst].
    by rewrite (authenticate_all_wrong (with_db st d1) no row1). }
  set (row2 := set_column row1 (kw_failed_attempts 2)).
  set (d2 := update_account d1 no [kw_failed_attempts 2]) in E2.
  assert (accounts d2 !! no = Some row2) as Hrow2
    by by apply update_account_lookup.
  assert (cards_unique d2) as Huniq2 by by apply update_account_cards_unique.
  (* third call *)
  assert (get_account_by_card d2 (r_card_no row) = Some (no, row2)) as Hget2
    by by apply (get_account_by_card_unique d2 no row2).
  destruct (authenticate_wrong_pin_blocks r2.1 (r_card_no row) no row2 p3)
    as (Hcall3 & Hrow3); [by rewrite E2|done|simpl; lia|done|].
  assert (r3.2 = BlockedAfterFailures) as Hout3
    by (subst r3; by rewrite Hcall3).
  assert (accounts (db r3.1) !! no
          = Some (mk_row (r_name row) (r_card_no row) (r_pin row)
                         (r_balance row) 1 3)) as Hrow3'
    by (subst r3; rewrite Hcall3; exact Hrow3).
  clear Hrow3. rename Hrow3' into Hrow3.
  (* afterwards *)
  split; [by rewrite E1|]. split; [by rewrite E2|]. split; [exact Hout3|].
  split; [exact Hrow3|].
  pose proof (step_rows_evolve r2.1 (OpAuthenticate (r_card_no row) p3)) as Hev.
  cbn [step] in Hev. fold r3 in Hev.
  assert (cards_unique (db r3.1)) as Huniq3.
  { eapply rows_evolve_cards_unique; [exact Hev|]. by rewrite E2. }
  pose proof (authenticate_refuses_blocked r3.1 no _ p4 Huniq3 Hrow3) as Hrefused.
  exact (f_equal snd (Hrefused ltac:(done))).
Qed.

(** X7. The right PIN, typed at the first prompt, or at a later one when
    the stored counter is below 2, logs the account in: the call returns
    True, the stored counter is 0 and every other column as it was, and
    the account object agrees with the row on account number, card, PIN
    and balance. *)
Theorem authenticate_right_pin_logs_in st card no row
    (pin_at : nat → string) (k : nat) :
  get_account_by_card (db st) card = Some (no, row) →
  r_blocked row = 0 →
  (k < 3)%nat → (k = 0%nat ∨ r_failed_attempts row < 2) →
  (∀ j, (j < k)%nat → pin_at j ≠ r_pin row) →
  pin_at k = r_pin row →
  let r := authenticate st card pin_at in
  auth_returns r.2 = true ∧
  accounts (db r.1) !! no
    = Some (mk_row (r_name row) (r_card_no row) (r_pin row) (r_balance row)
                   (r_blocked row) 0) ∧
  current_account r.1
    = Some (mk_account no (r_name row) card (r_pin row) (r_balance row)
                       0 (r_failed_attempts row)) ∧
  in_sync r.1.
Proof.
  intros Hget Hopen Hk Hlow Hwrong Hright r. subst r.
  pose proof Hget as [Hrow Hcard]%get_account_by_card_Some.
  rewrite (authenticate_found st card no row) by done.
  assert (auth_loop (seq 0 3) pin_at card (no, row) st =
            (with_account
               (with_db st (update_account (db st) no [kw_failed_attempts 0]))
               (Some (Account_init (no, row))), Authenticated)) as ->.
  { destruct Hlow as [->|Hlow].
    - cbn. by rewrite decide_True.
    - replace (seq 0 3) with (seq 0 k ++ k :: seq (S k) (2 - k)).
      + apply (auth_loop_right_pin _ _ _ _ _ (no, row)); [|done|simpl; lia].
        intros j Hj. apply Hwrong. apply elem_of_seq in Hj. lia.
      + destruct k as [|[|[|k]]]; try reflexivity. lia. }
  pose proof (update_account_lookup (db st) no row (kw_failed_attempts 0) Hrow)
    as Hrow'.
  split; [done|]. split; [exact Hrow'|]. split.
  - cbn. unfold Account_init. cbn. by rewrite Hcard, Hopen.
  - intros a [= <-]. eexists. split; [exact Hrow'|]. by cbn.
Qed.
End lockout.

(** ** The account object and its row *)

(** The columns kept in both places are the same in the two rows. *)
Definition same_money (r r' : account_row) : Prop :=
  r_balance r' = r_balance r ∧ r_pin r' = r_pin r ∧ r_card_no r' = r_card_no r.

Section account_object.
Implicit Types (st : ATM) (d : Database) (no : string) (row : account_row).

Lemma accounts_add_transaction d no (type_ : string) (amount : Z)
    (details : string) :
  accounts (add_transaction d no type_ amount details) = accounts d.
Proof. done. Qed.

Lemma accounts_update_atm_cash d (new_cash : Z) :
  accounts (update_atm_cash d new_cash) = accounts d.
Proof. done. Qed.

Lemma in_sync_intro d lg (a : Account) row :
  accounts d !! account_no a = Some row →
  r_balance row = balance a → r_pin row = pin a → r_card_no row = card_no a →
  in_sync (mk_atm d lg (Some a)).
Proof. intros ???? a' [= <-]. by exists row. Qed.

Lemma in_sync_update_balance st (a : Account) v :
  in_sync st → current_account st = Some a →
  ∀ lg (d' : Database),
    accounts d' = accounts (update_balance (db st) (account_no a) v) →
    in_sync (mk_atm d' lg (Some (with_balance a v))).
Proof.
  intros Hsync Ha lg d' Hd'. destruct (Hsync a Ha) as (row & Hrow & Hb & Hp & Hc).
  apply (in_sync_intro _ _ _ (set_balance v row)); try done.
  rewrite Hd'. cbn. by rewrite update_balance_same, Hrow.
Qed.

(** Columns other than the balance, the PIN and the card may change
    under an account object without breaking the agreement. *)
Lemma in_sync_rows st (d' : Database) lg :
  in_sync st →
  (∀ no row, accounts (db st) !! no = Some row →
     ∃ row', accounts d' !! no = Some row' ∧ same_money row row') →
  in_sync (mk_atm d' lg (current_account st)).
Proof.
  intros Hsync Hrows a Ha. cbn in Ha.
  destruct (Hsync a Ha) as (row & Hrow & Hb & Hp & Hc).
  destruct (Hrows _ _ Hrow) as (row' & Hrow' & Hb' & Hp' & Hc').
  exists row'. split; [exact Hrow'|]. repeat split; congruence.
Qed.

Lemma update_account_keeps_money d no (k : kwarg) :
  (∀ v, k ≠ kw_pin v) →
  ∀ no' row, accounts d !! no' = Some row →
    ∃ row', accounts (update_account d no [k]) !! no' = Some row' ∧
            same_money row row'.
Proof.
  intros Hk no' row Hrow. unfold update_account. cbn.
  rewrite lookup_alter. case_decide as Hno.
  - subst no'. rewrite Hrow. eexists. split; [done|].
    destruct k; try done. by destruct (Hk v).
  - exists row. by split.
Qed.

Lemma auth_loop_keeps_money attempts pin_at card (kr : string * account_row) st :
  ∀ no row, accounts (db st) !! no = Some row →
    ∃ row', accounts (db (auth_loop attempts pin_at card kr st).1) !! no
              = Some row' ∧ same_money row row'.
Proof.
  revert st. induction attempts as [|k rest IH]; intros st no row Hrow; cbn.
  { exists row. by split. }
  destruct (update_account_keeps_money (db st) kr.1
              (kw_failed_attempts (r_failed_attempts kr.2 + 1))
              ltac:(done) no row Hrow) as (row1 & Hrow1 & Hm1).
  repeat case_decide; cbn.
  - by apply update_account_keeps_money.
  - destruct (update_account_keeps_money _ kr.1 (kw_blocked 1)
                ltac:(done) no row1 Hrow1) as (row2 & Hrow2 & Hm2).
    exists row2. split; [done|].
    destruct Hm1 as (? & ? & ?), Hm2 as (? & ? & ?). repeat split; congruence.
  - destruct (IH (with_db st (update_account (db st) kr.1
                    [kw_failed_attempts (r_failed_attempts kr.2 + 1)]))
                no row1 Hrow1) as (row2 & Hrow2 & Hm2).
    exists row2. split; [done|].
    destruct Hm1 as (? & ? & ?), Hm2 as (? & ? & ?). repeat split; congruence.
Qed.

Lemma auth_loop_account attempts pin_at card (kr : string * account_row) st :
  current_account (auth_loop attempts pin_at card kr st).1 = current_account st ∨
  current_account (auth_loop attempts pin_at card kr st).1 = Some (Account_init kr).
Proof.
  revert st. induction attempts as [|k rest IH]; intros st; cbn; [by left|].
  repeat case_decide; cbn; [by right|by left|].
  apply (IH (with_db st _)).
Qed.

Lemma auth_loop_in_sync attempts pin_at card (kr : string * account_row) st :
  accounts (db st) !! kr.1 = Some kr.2 → in_sync st →
  in_sync (auth_loop attempts pin_at card kr st).1.
Proof.
  intros Hkr Hsync.
  pose proof (auth_loop_keeps_money attempts pin_at card kr st) as Hrows.
  destruct (auth_loop_account attempts pin_at card kr st) as [Hacct|Hacct].
  - pose proof (in_sync_rows st (db (auth_loop attempts pin_at card kr st).1)
                  (logfile (auth_loop attempts pin_at card kr st).1) Hsync Hrows)
      as Hres.
    rewrite <- Hacct in Hres.
    by destruct (auth_loop attempts pin_at card kr st).1.
  - intros a Ha. rewrite Hacct in Ha. injection Ha as <-.
    destruct (Hrows _ _ Hkr) as (row' & Hrow' & Hb & Hp & Hc).
    exists row'. by repeat split.
Qed.

Lemma step_in_sync st (o : operation) :
  in_sync st → ¬ transfers_to_self st o → in_sync (step st o).
Proof.
  intros Hsync Hself.
  destruct o as [card pin_at|typed|typed|target_acc typed|typed|o n c| |typed];
    cbn [step].
  - unfold authenticate.
    destruct (get_account_by_card _ _) as [[no row]|] eqn:Hget; [|done].
    destruct (truthy _); [done|].
    apply auth_loop_in_sync; [|done].
    by apply get_account_by_card_Some in Hget as [? _].
  - unfold withdraw_cash.
    destruct (current_account st) as [acct|] eqn:Ha; [|done].
    destruct typed as [amount|]; [|done].
    repeat case_decide; try done. cbn [fst].
    by eapply in_sync_update_balance.
  - unfold deposit_cash.
    destruct (current_account st) as [acct|] eqn:Ha; [|done].
    destruct typed as [amount|]; [|done].
    repeat case_decide; try done. cbn [fst].
    by eapply in_sync_update_balance.
  - unfold transfer_funds.
    destruct (current_account st) as [acct|] eqn:Ha; [|done].
    destruct (get_account_by_no _ _) as [target_row|]; [|done].
    destruct typed as [amount|]; [|done].
    repeat case_decide; try done. cbn [fst].
    assert (account_no acct ≠ target_acc) as Hne.
    { intros <-. apply Hself. cbn. by rewrite Ha. }
    destruct (Hsync acct Ha) as (row & Hrow & Hb & Hp & Hc).
    apply (in_sync_intro _ _ _ (set_balance (balance acct - amount) row));
      try done.
    cbn. rewrite !accounts_add_transaction.
    rewrite update_balance_other by done.
    by rewrite update_balance_same, Hrow.
  - unfold fast_cash.
    destruct (current_account st) as [acct|] eqn:Ha; [|done].
    destruct typed as [choice|]; [|done].
    destruct (py_getitem _ _) as [amount|]; [|done].
    unfold withdraw_cash_amount. rewrite Ha.
    repeat case_decide; try done. cbn [fst].
    by eapply in_sync_update_balance.
  - unfold change_pin.
    destruct (current_account st) as [acct|] eqn:Ha; [|done].
    repeat case_decide; try done. cbn [fst].
    destruct (Hsync acct Ha) as (row & Hrow & Hb & Hp & Hc).
    apply (in_sync_intro _ _ _ (set_column row (kw_pin n))); try done.
    by apply update_account_lookup.
  - intros a Ha. done.
  - unfold load_cash. destruct typed as [amount|]; [|done].
    repeat case_decide; try done.
Qed.

(** X9. A transfer to the account that is logged in, with the object in
    agreement with its row: for any positive amount within the balance the
    transfer is reported as done, the stored balance goes up by the amount
    while the object's balance goes down by it, the machine's cash is
    unchanged, and object and row no longer agree. *)
Theorem transfer_to_self_credits_the_row st (acct : Account) (amount : Z) :
  current_account st = Some acct → in_sync st →
  0 < amount ≤ balance acct →
  let r := transfer_funds st (account_no acct) (Some amount) in
  r.2 = Transferred amount (account_no acct) (balance acct - amount) ∧
  get_balance (db st) (account_no acct) = Some (balance acct) ∧
  get_balance (db r.1) (account_no acct) = Some (balance acct + amount) ∧
  balance <$> current_account r.1 = Some (balance acct - amount) ∧
  total_cash (db r.1) = total_cash (db st) ∧
  ¬ in_sync r.1.
Proof.
  intros Ha Hsync Hamount r. subst r.
  destruct (Hsync acct Ha) as (row & Hrow & Hb & Hp & Hc).
  rewrite (transfer_funds_accepted st acct (account_no acct) row) by done.
  assert (get_balance
            (update_balance
               (update_balance (db st) (account_no acct) (balance acct - amount))
               (account_no acct) (r_balance row + amount)) (account_no acct)
          = Some (balance acct + amount)) as Hafter.
  { unfold get_balance. rewrite !update_balance_same, Hrow. cbn. by rewrite Hb. }
  split; [done|]. split; [by unfold get_balance; rewrite Hrow; cbn; rewrite Hb|].
  split; [exact Hafter|]. split; [done|]. split; [done|].
  intros Hbroken. destruct (Hbroken _ eq_refl) as (row' & Hrow' & Hb' & _).
  assert (r_balance <$> Some row' = Some (balance acct + amount)) as Hstored
    by exact (eq_trans (f_equal (fmap r_balance) (eq_sym Hrow')) Hafter).
  cbn in Hstored, Hb'. injection Hstored as Hstored. lia.
Qed.
End account_object.

(** ** Conservation of money *)

(** What the accounts hold beyond the cash in the machine.  Cash that
    leaves the machine is debited, cash that enters it is credited, so the
    difference is what the operations at the machine should leave alone. *)
Definition money (st : ATM) : Z :=
  total_balances (accounts (db st)) - total_cash (db st).

(** The operations that change that difference: loading cash, and a
    transfer to the account that is logged in. *)
Definition brings_money_in (st : ATM) (o : operation) : Prop :=
  transfers_to_self st o ∨ ∃ typed, o = OpLoadCash typed.

(** No operation of the sequence, at the state it is run in, brings
    money in. *)
Fixpoint closed_run (st : ATM) (ops : list operation) : Prop :=
  match ops with
  | [] => True
  | o :: rest => ¬ brings_money_in st o ∧ closed_run (step st o) rest
  end.

Section conservation.
Implicit Types (st : ATM) (d : Database) (m : gmap string account_row).

Lemma total_balances_insert m (no : string) (r : account_row) :
  m !! no = None → total_balances (<[no := r]> m) = r_balance r + total_balances m.
Proof.
  intros Hno. unfold total_balances.
  rewrite map_fold_insert_L; [done| |done]. intros. lia.
Qed.

Lemma total_balances_alter m (f : account_row → account_row) (no : string)
    (r : account_row) :
  m !! no = Some r →
  total_balances (alter f no m) = total_balances m - r_balance r + r_balance (f r).
Proof.
  intros Hr. rewrite <- (insert_delete_id m no r Hr) at 1 2.
  rewrite alter_insert_eq.
  rewrite !total_balances_insert by apply lookup_delete_eq. lia.
Qed.

Lemma total_balances_alter_same m (f : account_row → account_row) (no : string) :
  (∀ r, r_balance (f r) = r_balance r) →
  total_balances (alter f no m) = total_balances m.
Proof.
  intros Hf. destruct (m !! no) as [r|] eqn:Hr.
  - rewrite (total_balances_alter m f no r Hr), Hf. lia.
  - by rewrite alter_id'.
Qed.

Lemma total_balances_update_account d (no : string) (kwargs : list kwarg) :
  total_balances (accounts (update_account d no kwargs)) = total_balances (accounts d).
Proof.
  unfold update_account. cbn. apply total_balances_alter_same.
  intros r. apply set_columns_balance.
Qed.

Lemma auth_loop_money attempts pin_at card (kr : string * account_row) st :
  money (auth_loop attempts pin_at card kr st).1 = money st.
Proof.
  revert st. induction attempts as [|k rest IH]; intros st; cbn; [done|].
  repeat case_decide; cbn.
  - unfold money. cbn. by rewrite total_balances_update_account.
  - unfold money. cbn. by rewrite !total_balances_update_account.
  - rewrite (IH (with_db st _)). unfold money. cbn.
    by rewrite total_balances_update_account.
Qed.

Lemma money_update_balance st (a : Account) (v c : Z) (d' : Database) lg acct' :
  in_sync st → current_account st = Some a →
  accounts d' = accounts (update_balance (db st) (account_no a) v) →
  total_cash d' = c →
  v - c = balance a - total_cash (db st) →
  money (mk_atm d' lg acct') = money st.
Proof.
  intros Hsync Ha Hd' Hc Hsum.
  destruct (Hsync a Ha) as (row & Hrow & Hb & _).
  unfold money. cbn. rewrite Hd', Hc. unfold update_balance. cbn.
  rewrite (total_balances_alter _ _ _ row Hrow). cbn. lia.
Qed.

Lemma step_keeps_money st (o : operation) :
  in_sync st → ¬ brings_money_in st o → money (step st o) = money st.
Proof.
  intros Hsync Hin.
  destruct o as [card pin_at|typed|typed|target_acc typed|typed|o n c| |typed];
    cbn [step].
  - unfold authenticate.
    destruct (get_account_by_card _ _) as [[no row]|]; [|done].
    destruct (truthy _); [done|]. apply auth_loop_money.
  - unfold withdraw_cash.
    destruct (current_account st) as [acct|] eqn:Ha; [|done].
    destruct typed as [amount|]; [|done].
    repeat case_decide; try done. cbn [fst].
    eapply money_update_balance; try done.
    unfold get_atm_cash, add_transaction, update_atm_cash. cbn. lia.
  - unfold deposit_cash.
    destruct (current_account st) as [acct|] eqn:Ha; [|done].
    destruct typed as [amount|]; [|done].
    repeat case_decide; try done. cbn [fst].
    eapply money_update_balance; try done.
    unfold get_atm_cash, add_transaction, update_atm_cash. cbn. lia.
  - unfold transfer_funds.
    destruct (current_account st) as [acct|] eqn:Ha; [|done].
    destruct (get_account_by_no _ _) as [[t target_row]|] eqn:Hget; [|done].
    destruct typed as [amount|]; [|done].
    repeat case_decide; try done. cbn [fst snd].
    apply get_account_by_no_Some in Hget as [_ Htarget]. cbn in Htarget.
    assert (account_no acct ≠ target_acc) as Hne.
    { intros <-. apply Hin. left. cbn. by rewrite Ha. }
    destruct (Hsync acct Ha) as (row & Hrow & Hb & _).
    unfold money. cbn. rewrite !accounts_add_transaction.
    unfold update_balance at 1. cbn.
    rewrite (total_balances_alter _ _ _ target_row)
      by by rewrite update_balance_other.
    unfold update_balance. cbn.
    rewrite (total_balances_alter _ _ _ row Hrow).
    unfold add_transaction. cbn. lia.
  - unfold fast_cash.
    destruct (current_account st) as [acct|] eqn:Ha; [|done].
    destruct typed as [choice|]; [|done].
    destruct (py_getitem _ _) as [amount|]; [|done].
    unfold withdraw_cash_amount. rewrite Ha.
    repeat case_decide; try done. cbn [fst].
    eapply money_update_balance; try done.
    unfold get_atm_cash, add_transaction, update_atm_cash. cbn. lia.
  - unfold change_pin.
    destruct (current_account st) as [acct|] eqn:Ha; [|done].
    repeat case_decide; try done. cbn [fst].
    unfold money. cbn. by rewrite total_balances_update_account.
  - done.
  - destruct Hin. right. by eexists.
Qed.

End conservation.

(** No transfer of the sequence, at the state it is run in, goes to the
    account that is logged in. *)
Fixpoint never_transfers_to_self (st : ATM) (ops : list operation) : Prop :=
  match ops with
  | [] => True
  | o :: rest => ¬ transfers_to_self st o ∧ never_transfers_to_self (step st o) rest
  end.

(** X8. Along any sequence of operations without a transfer to the
    account that is logged in, the account object and its row agree on
    balance, PIN and card number after every operation. *)
Theorem account_object_stays_in_sync (st : ATM) (ops : list operation) :
  in_sync st → never_transfers_to_self st ops →
  Forall in_sync (trace st ops).
Proof.
  revert st. induction ops as [|o ops IH]; intros st Hsync Hnever; cbn;
    [constructor|].
  destruct Hnever as [Hself Hrest].
  pose proof (step_in_sync st o Hsync Hself) as Hstep.
  constructor; [done|by apply IH].
Qed.

(** X10. Cash that leaves the machine is debited and cash that enters it
    is credited: along any sequence of operations without a cash load and
    without a transfer to the account that is logged in, starting with the
    account object in agreement with its row, the sum of all stored
    balances minus the machine's cash is the same at the end as at the
    start. *)
Theorem balances_move_with_the_cash (st : ATM) (ops : list operation) :
  in_sync st → closed_run st ops →
  total_balances (accounts (db (run_operations st ops)))
    - total_cash (db (run_operations st ops))
  = total_balances (accounts (db st)) - total_cash (db st).
Proof.
  revert st. induction ops as [|o ops IH]; intros st Hsync Hclosed; [done|].
  destruct Hclosed as [Hin Hrest]. cbn.
  rewrite IH; [|apply step_in_sync|]; try done.
  - by apply step_keeps_money.
  - intros Hself. apply Hin. by left.
Qed.

(** ** The transactions table and the log file *)

Ltac known_type :=
  unfold transaction_types;
  repeat first [apply list_elem_of_here | apply list_elem_of_further].

Section ledger.
Implicit Types (st : ATM) (d : Database).

Lemma auth_loop_transactions attempts pin_at card (kr : string * account_row) st :
  transactions (db (auth_loop attempts pin_at card kr st).1) = transactions (db st) ∧
  logfile st `prefix_of` logfile (auth_loop attempts pin_at card kr st).1.
Proof.
  revert st. induction attempts as [|k rest IH]; intros st; cbn; [done|].
  repeat case_decide; cbn; [done|split; [done|by apply prefix_app_r]|].
  exact (IH (with_db st (update_account (db st) kr.1
               [kw_failed_attempts (r_failed_attempts kr.2 + 1)]))).
Qed.

Lemma appends_nothing (l : list transaction) :
  ∃ new, l = l ++ new ∧ Forall well_formed_transaction new ∧ (length new ≤ 2)%nat.
Proof. exists []. rewrite app_nil_r. repeat split; [constructor|simpl; lia]. Qed.

Lemma appends_one (l : list transaction) (no ty details : string) (amount : Z) :
  0 < amount → ty ∈ transaction_types →
  ∃ new, l ++ [mk_transaction no ty amount details] = l ++ new ∧
         Forall well_formed_transaction new ∧ (length new ≤ 2)%nat.
Proof.
  intros Hpos Hty. exists [mk_transaction no ty amount details].
  split; [done|]. split; [|simpl; lia].
  apply Forall_cons. split; [by split|apply Forall_nil_2].
Qed.

(** What one operation adds to the transactions table and whether the
    log file grew. *)
Lemma step_appends st (o : operation) :
  (∃ new, transactions (db (step st o)) = transactions (db st) ++ new ∧
          Forall well_formed_transaction new ∧ (length new ≤ 2)%nat) ∧
  logfile st `prefix_of` logfile (step st o).
Proof.
  assert ((∃ new, transactions (db st) = transactions (db st) ++ new ∧
                  Forall well_formed_transaction new ∧ (length new ≤ 2)%nat) ∧
          logfile st `prefix_of` logfile st) as Hsame
    by (split; [apply appends_nothing|done]).
  destruct o as [card pin_at|typed|typed|target_acc typed|typed|o n c| |typed];
    cbn [step].
  - unfold authenticate.
    destruct (get_account_by_card _ _) as [[no row]|].
    + destruct (truthy _).
      * split; [apply appends_nothing|by apply prefix_app_r].
      * destruct (auth_loop_transactions (seq 0 3) pin_at card (no, row) st)
          as [Ht Hl].
        split; [|done]. rewrite Ht. apply appends_nothing.
    + split; [apply appends_nothing|by apply prefix_app_r].
  - unfold withdraw_cash.
    destruct (current_account st) as [acct|]; [|done].
    destruct typed as [amount|]; [|done].
    repeat case_decide; try done.
    split; [|by apply prefix_app_r]. apply appends_one; [lia|known_type].
  - unfold deposit_cash.
    destruct (current_account st) as [acct|]; [|done].
    destruct typed as [amount|]; [|done].
    repeat case_decide; try done.
    split; [|by apply prefix_app_r]. apply appends_one; [lia|known_type].
  - unfold transfer_funds.
    destruct (current_account st) as [acct|]; [|done].
    destruct (get_account_by_no _ _); [|done].
    destruct typed as [amount|]; [|done].
    repeat case_decide; try done.
    split; [|by apply prefix_app_r].
    exists [mk_transaction (account_no acct) "Transfer Out" amount
              ("To " +:+ target_acc);
            mk_transaction target_acc "Transfer In" amount
              ("From " +:+ account_no acct)].
    split; [by unfold add_transaction; cbn; rewrite <- app_assoc|].
    split; [|simpl; lia].
    repeat (apply Forall_cons; split; [split; [cbn; lia|cbn; known_type]|]).
    apply Forall_nil_2.
  - unfold fast_cash.
    destruct (current_account st) as [acct|] eqn:Ha; [|done].
    destruct typed as [choice|]; [|done].
    destruct (py_getitem _ _) as [amount|] eqn:Hget; [|done].
    apply fast_cash_options_positive in Hget.
    unfold withdraw_cash_amount. rewrite Ha.
    repeat case_decide; try done.
    split; [|by apply prefix_app_r]. apply appends_one; [lia|known_type].
  - unfold change_pin.
    destruct (current_account st) as [acct|]; [|done].
    repeat case_decide; try done.
    split; [apply appends_nothing|by apply prefix_app_r].
  - done.
  - unfold load_cash. destruct typed as [amount|]; [|done].
    repeat case_decide; try done.
    split; [apply appends_nothing|by apply prefix_app_r].
Qed.

(** X11. Nothing is ever removed from or changed in the transactions
    table or the log file: after any sequence of operations both start
    with what they held before. *)
Theorem ledger_and_log_only_grow st (ops : list operation) :
  transactions (db st) `prefix_of` transactions (db (run_operations st ops)) ∧
  logfile st `prefix_of` logfile (run_operations st ops).
Proof.
  revert st. induction ops as [|o ops IH]; intros st; [done|]. cbn.
  destruct (IH (step st o)) as [Ht Hl].
  destruct (step_appends st o) as [(new & Hnew & _) Hlog].
  split; [|by etrans].
  etrans; [|exact Ht]. rewrite Hnew. by apply prefix_app_r.
Qed.

(** X12. Every transaction the machine records has a positive amount and
    one of the five types "Withdraw", "Deposit", "Transfer Out",
    "Transfer In", "Fast Cash"; one operation records at most two. *)
Theorem recorded_transactions_are_well_formed st (ops : list operation) :
  Forall well_formed_transaction (transactions (db st)) →
  Forall well_formed_transaction (transactions (db (run_operations st ops))) ∧
  (length (transactions (db (run_operations st ops)))
     ≤ length (transactions (db st)) + 2 * length ops)%nat.
Proof.
  revert st. induction ops as [|o ops IH]; intros st Hwf; cbn [run_operations foldl].
  { split; [done|lia]. }
  destruct (step_appends st o) as [(new & Hnew & Hnewwf & Hlen) _].
  destruct (IH (step st o)) as [Hall Hcount].
  { rewrite Hnew. apply Forall_app. by split. }
  split; [exact Hall|].
  etrans; [exact Hcount|]. rewrite Hnew, length_app. cbn [length]. lia.
Qed.
End ledger.

(** ** Refusals, and how the operations fit together *)

(** The messages that announce that something was done. *)
Definition reports_done (m : message) : bool :=
  match m with
  | Withdrawn _ _ | Deposited _ _ | Transferred _ _ _ | Loaded _ _
  | PinChanged => true
  | _ => false
  end.

(** The message an operation of the menus ends with. *)
Definition answer (st : ATM) (o : operation) : option message :=
  match o with
  | OpWithdraw typed => Some (withdraw_cash st typed).2
  | OpDeposit typed => Some (deposit_cash st typed).2
  | OpTransfer target_acc typed => Some (transfer_funds st target_acc typed).2
  | OpFastCash typed => Some (fast_cash st typed).2
  | OpChangePin o n c => Some (change_pin st o n c).2
  | OpLoadCash typed => Some (load_cash st typed).2
  | OpAuthenticate _ _ | OpLogout => None
  end.

Section composition.
Implicit Types (st : ATM) (acct : Account) (amount : Z).

(** X13. No partial effects: a withdrawal, deposit, transfer, fast cash,
    PIN change or cash load that ends with any message other than its
    message of success leaves the database, the log file and the account
    object exactly as they were. *)
Theorem refused_operation_changes_nothing st (o : operation) (m : message) :
  answer st o = Some m → reports_done m = false → step st o = st.
Proof.
  destruct o as [card pin_at|typed|typed|target_acc typed|typed|o n c| |typed];
    cbn [answer step]; try done; intros [= <-].
  - unfold withdraw_cash.
    destruct (current_account st), typed; try done.
    by repeat case_decide.
  - unfold deposit_cash.
    destruct (current_account st), typed; try done.
    by repeat case_decide.
  - unfold transfer_funds.
    destruct (current_account st); [|done].
    destruct (get_account_by_no _ _); [|done].
    destruct typed; [|done]. by repeat case_decide.
  - unfold fast_cash.
    destruct (current_account st) eqn:Ha; [|done].
    destruct typed; [|done].
    destruct (py_getitem _ _); [|done].
    unfold withdraw_cash_amount. rewrite Ha. by repeat case_decide.
  - unfold change_pin.
    destruct (current_account st); [|done]. by repeat case_decide.
  - unfold load_cash. destruct typed; [|done]. by repeat case_decide.
Qed.

(** X14. Fast cash with a choice from the menu is a withdrawal of the
    preset amount under another name: it ends with the same message and
    leaves the same accounts table, the same cash and the same account
    object as [withdraw_cash] with that amount; when the money is paid
    out, the only difference is the type of the recorded transaction,
    "Fast Cash" instead of "Withdraw". *)
Theorem fast_cash_is_a_withdrawal st acct (i : nat) amount :
  current_account st = Some acct →
  FAST_CASH_OPTIONS !! i = Some amount →
  let f := fast_cash st (Some (Z.of_nat i + 1)) in
  let w := withdraw_cash st (Some amount) in
  f.2 = w.2 ∧
  accounts (db f.1) = accounts (db w.1) ∧
  total_cash (db f.1) = total_cash (db w.1) ∧
  current_account f.1 = current_account w.1 ∧
  (reports_done w.2 = false → f.1 = st ∧ w.1 = st) ∧
  (reports_done w.2 = true →
     transactions (db f.1)
       = transactions (db st) ++ [mk_transaction (account_no acct) "Fast Cash" amount ""] ∧
     transactions (db w.1)
       = transactions (db st) ++ [mk_transaction (account_no acct) "Withdraw" amount ""]).
Proof.
  intros Ha Hi f w. subst f w.
  assert (0 < amount) as Hpos.
  { apply list_elem_of_lookup_2 in Hi. unfold FAST_CASH_OPTIONS in Hi.
    repeat (apply elem_of_cons in Hi as [->|Hi]; [lia|]).
    by apply elem_of_nil in Hi. }
  unfold fast_cash. rewrite Ha.
  assert (py_getitem FAST_CASH_OPTIONS (Z.of_nat i + 1 - 1) = Some amount) as ->.
  { unfold py_getitem. rewrite decide_True by lia.
    by replace (Z.to_nat (Z.of_nat i + 1 - 1)) with i by lia. }
  unfold withdraw_cash_amount, withdraw_cash. rewrite Ha.
  rewrite (decide_False (P := amount ≤ 0)) by lia.
  repeat case_decide; cbn; repeat split; done.
Qed.

(** X15. A deposit of the amount just withdrawn puts everything back:
    after an accepted withdrawal, with the account object in agreement
    with its row and the machine's cash within its limit, depositing the
    same amount is accepted and restores the accounts table, the cash and
    the account object; the transactions table has the two entries more. *)
Theorem deposit_undoes_withdrawal st acct amount :
  current_account st = Some acct → in_sync st →
  total_cash (db st) ≤ ATM_CASH_LIMIT →
  reports_done (withdraw_cash st (Some amount)).2 = true →
  let st1 := (withdraw_cash st (Some amount)).1 in
  let r := deposit_cash st1 (Some amount) in
  r.2 = Deposited amount (balance acct) ∧
  accounts (db r.1) = accounts (db st) ∧
  total_cash (db r.1) = total_cash (db st) ∧
  current_account r.1 = Some acct ∧
  transactions (db r.1) =
    transactions (db st) ++
      [mk_transaction (account_no acct) "Withdraw" amount "";
       mk_transaction (account_no acct) "Deposit" amount ""].
Proof.
  intros Ha Hsync Hcap Hdone st1 r. subst r st1.
  assert (0 < amount ≤ balance acct ∧ amount ≤ DAILY_WITHDRAWAL_LIMIT ∧
          amount ≤ total_cash (db st)) as (Hamount & Hlimit & Hcash).
  { revert Hdone. unfold withdraw_cash, get_atm_cash. rewrite Ha.
    repeat case_decide; try done. intros _. lia. }
  rewrite (withdraw_cash_accepted st acct) by done.
  destruct (Hsync acct Ha) as (row & Hrow & Hb & _).
  unfold deposit_cash, get_atm_cash, add_transaction, update_atm_cash,
    update_balance. cbn.
  rewrite decide_False by lia. rewrite decide_False by lia. cbn.
  replace (balance acct - amount + amount) with (balance acct) by lia.
  replace (total_cash (db st) - amount + amount) with (total_cash (db st)) by lia.
  repeat split.
  - rewrite alter_alter_eq. apply alter_id.
    intros x Hx. rewrite Hrow in Hx. injection Hx as <-.
    destruct row. cbn in *. by subst.
  - by destruct acct.
  - by rewrite <- app_assoc.
Qed.
End composition.

(** ** Creating accounts *)

Section creating_accounts.
Implicit Types (d : Database) (no holder card secret : string) (opening : Z).

Lemma add_account_Some d no holder card secret opening d' :
  add_account d no holder card secret opening = Some d' ↔
  accounts d !! no = None ∧
  (∀ no' r, accounts d !! no' = Some r → r_card_no r ≠ card) ∧
  d' = mk_db (<[no := mk_row holder card secret opening 0 0]> (accounts d))
             (transactions d) (total_cash d).
Proof.
  unfold add_account. split.
  - repeat case_decide; try done. intros [= <-].
    split; [by apply eq_None_not_Some|]. split; [|done].
    intros no' r Hr. apply (get_account_by_card_None d card no' r); [|done].
    by apply eq_None_not_Some.
  - intros (Hfree & Hcards & ->).
    rewrite decide_False by (rewrite Hfree; by intros [? ?]).
    rewrite decide_False; [done|].
    intros (no' & r & Hr & Hcard)%get_account_by_card_is_Some.
    by apply (Hcards no' r).
Qed.

(** X16. A row that [add_account] inserted can be read back: when the
    insert succeeds the new row holds the values given, with [blocked] and
    [failed_attempts] 0; it is what [get_account_by_no] returns for the
    account number and, card numbers having been unique, what
    [get_account_by_card] returns for the card; every other row, the
    transactions table and the machine's cash are as before, and card
    numbers are still unique. *)
Theorem add_account_can_be_read_back d no holder card secret opening d' :
  add_account d no holder card secret opening = Some d' →
  let row := mk_row holder card secret opening 0 0 in
  get_account_by_no d' no = Some (no, row) ∧
  (∀ no', no' ≠ no → accounts d' !! no' = accounts d !! no') ∧
  transactions d' = transactions d ∧ total_cash d' = total_cash d ∧
  (cards_unique d →
     cards_unique d' ∧ get_account_by_card d' card = Some (no, row)).
Proof.
  intros (Hfree & Hcards & ->)%add_account_Some row.
  assert (cards_unique d →
          cards_unique
            (mk_db (<[no := row]> (accounts d)) (transactions d) (total_cash d)))
    as Hstill.
  { intros Huniq no1 no2 r1 r2. cbn.
    rewrite !lookup_insert. repeat case_decide; subst.
    - done.
    - intros [= <-] Hr2 Hc. by destruct (Hcards no2 r2).
    - intros Hr1 [= <-] Hc. by destruct (Hcards no1 r1).
    - apply Huniq. }
  split; [|split; [|split; [done|split; [done|]]]].
  - unfold get_account_by_no. cbn. by rewrite lookup_insert_eq.
  - intros no' Hne. cbn. by rewrite lookup_insert_ne.
  - intros Huniq. split; [by apply Hstill|].
    apply (get_account_by_card_unique _ no row); [by apply Hstill|].
    cbn. by rewrite lookup_insert_eq.
Qed.


(** X18. A new account can log in at once: after a successful
    [add_account], with card numbers unique before, [authenticate] with
    the new card and the PIN given at creation returns True at the first
    prompt, and the account object holds the opening balance. *)
Theorem new_account_can_log_in (st : ATM) no holder card secret opening d'
    (pin_at : nat → string) :
  add_account (db st) no holder card secret opening = Some d' →
  cards_unique (db st) →
  pin_at 0%nat = secret →
  let r := authenticate (with_db st d') card pin_at in
  auth_returns r.2 = true ∧
  current_account r.1 = Some (mk_account no holder card secret opening 0 0).
Proof.
  intros Hadd Huniq Hpin r. subst r.
  pose proof Hadd as (Hfree & Hcards & ->)%add_account_Some.
  assert (cards_unique
            (mk_db (<[no := mk_row holder card secret opening 0 0]> (accounts (db st)))
                   (transactions (db st)) (total_cash (db st)))) as Huniq'.
  { intros no1 no2 r1 r2. cbn.
    rewrite !lookup_insert. repeat case_decide; subst.
    - done.
    - intros [= <-] Hr2 Hc. by destruct (Hcards no2 r2).
    - intros Hr1 [= <-] Hc. by destruct (Hcards no1 r1).
    - apply Huniq. }
  rewrite (authenticate_found _ card no (mk_row holder card secret opening 0 0));
    [|by apply (get_account_by_card_unique _ no (mk_row holder card secret opening 0 0));
        [|cbn; rewrite lookup_insert_eq]|done].
  cbn. by rewrite decide_True.
Qed.

(** X19. Seeding twice is seeding once: when the guarded inserts of the
    demo data succeed, running them again on the result succeeds and
    changes nothing. *)
Theorem populate_twice (d d' : Database) :
  populate d = Some d' → populate d' = Some d'.
Proof.
  assert (∀ (e e' : Database) no holder card secret opening,
            add_account e no holder card secret opening = Some e' →
            is_Some (get_account_by_card e' card)) as Hnew.
  { intros e e' no holder card secret opening (_ & _ & ->)%add_account_Some.
    apply get_account_by_card_is_Some. eexists no, _. cbn.
    by rewrite lookup_insert_eq. }
  assert (∀ (e e' : Database) no holder card secret opening card',
            add_account e no holder card secret opening = Some e' →
            is_Some (get_account_by_card e card') →
            is_Some (get_account_by_card e' card')) as Hkept.
  { intros e e' no holder card secret opening card'
      (Hfree & _ & ->)%add_account_Some
      (no' & r & Hr & Hc)%get_account_by_card_is_Some.
    apply get_account_by_card_is_Some. exists no', r. split; [|done]. cbn.
    rewrite lookup_insert_ne; [done|]. intros <-. by rewrite Hfree in Hr. }
  unfold populate. intros Hpop.
  destruct (decide (is_Some (get_account_by_card d "1234567890"))) as [Ha|Ha];
    cbn in Hpop.
  - destruct (decide (is_Some (get_account_by_card d "9876543210"))) as [Hb|Hb].
    + injection Hpop as <-. rewrite decide_True by done. cbn.
      by rewrite decide_True.
    + rewrite decide_True by by eapply Hkept. cbn.
      rewrite decide_True; [done|]. by eapply Hnew.
  - destruct (add_account d "1001" "Alice" "1234567890" "1111" 100000)
      as [d1|] eqn:Hd1; [|done]. cbn in Hpop.
    destruct (decide (is_Some (get_account_by_card d1 "9876543210"))) as [Hb|Hb].
    + injection Hpop as <-. rewrite decide_True by by eapply Hnew. cbn.
      by rewrite decide_True.
    + rewrite decide_True
        by (eapply Hkept; [exact Hpop|by eapply Hnew]).
      cbn. rewrite decide_True; [done|]. by eapply Hnew.
Qed.
End creating_accounts.

Example populate_new_database : populate new_database = Some sample_db.
Proof. vm_compute. reflexivity. Qed.

(** * The menus *)

(** The menus read what is typed line by line.  [lines] is what is left
    to read; [input()] and [getpass()] take the first line, and raise
    [EOFError], which nothing catches, when none is left.  A menu ends by
    returning, by that error, or, in the model only, by running out of
    the fuel its loop is given. *)
Inductive ending := Returned | EndOfInput | Unfinished.

Section menus.

(** Python's [int()] on the text of a line: the number, or [None] when it
    raises [ValueError]. *)
Variable py_int : string → option Z.

Definition withdraw_cash_io (st : ATM) (lines : list string)
  : ATM * list string * ending :=
  match current_account st, lines with
  | None, _ => (st, lines, Returned)
  | Some _, [] => (st, [], EndOfInput)
  | Some _, typed :: rest => ((withdraw_cash st (py_int typed)).1, rest, Returned)
  end.

Definition deposit_cash_io (st : ATM) (lines : list string)
  : ATM * list string * ending :=
  match current_account st, lines with
  | None, _ => (st, lines, Returned)
  | Some _, [] => (st, [], EndOfInput)
  | Some _, typed :: rest => ((deposit_cash st (py_int typed)).1, rest, Returned)
  end.

Definition transfer_funds_io (st : ATM) (lines : list string)
  : ATM * list string * ending :=
  match current_account st, lines with
  | None, _ => (st, lines, Returned)
  | Some _, [] => (st, [], EndOfInput)
  | Some _, target_acc :: rest =>
      match get_account_by_no (db st) target_acc, rest with
      | None, _ => (st, rest, Returned)
      | Some _, [] => (st, [], EndOfInput)
      | Some _, typed :: rest' =>
          ((transfer_funds st target_acc (py_int typed)).1, rest', Returned)
      end
  end.

Definition fast_cash_io (st : ATM) (lines : list string)
  : ATM * list string * ending :=
  match current_account st, lines with
  | None, _ => (st, lines, Returned)
  | Some _, [] => (st, [], EndOfInput)
  | Some _, typed :: rest => ((fast_cash st (py_int typed)).1, rest, Returned)
  end.

Definition load_cash_io (st : ATM) (lines : list string)
  : ATM * list string * ending :=
  match lines with
  | [] => (st, [], EndOfInput)
  | typed :: rest => ((load_cash st (py_int typed)).1, rest, Returned)
  end.

(** [Account.change_pin]: the current PIN is asked for first, the new
    one and its confirmation only when it matched. *)
Definition change_pin_io (st : ATM) (lines : list string)
  : ATM * list string * ending :=
  match current_account st, lines with
  | None, _ => (st, lines, Returned)
  | Some _, [] => (st, [], EndOfInput)
  | Some self, old_pin :: rest =>
      if decide (old_pin ≠ pin self) then (st, rest, Returned)
      else match rest with
           | new_pin :: confirm_pin :: rest' =>
               ((change_pin st old_pin new_pin confirm_pin).1, rest', Returned)
           | _ => (st, [], EndOfInput)
           end
  end.

(** The loop of [authenticate], reading the PINs from the lines; the
    last component is what the method returns, [None] at the end of the
    input. *)
Fixpoint auth_loop_io (attempts : list nat) (lines : list string)
    (card : string) (row : string * account_row) (st : ATM)
  : ATM * list string * option bool :=
  match attempts with
  | [] => (st, lines, Some false)
  | _ :: later =>
      match lines with
      | [] => (st, [], None)
      | typed :: rest =>
          if decide (typed = r_pin row.2) then
            let d := update_account (db st) row.1 [kw_failed_attempts 0] in
            (with_account (with_db st d) (Some (Account_init row)), rest, Some true)
          else
            let d := update_account (db st) row.1
                       [kw_failed_attempts (r_failed_attempts row.2 + 1)] in
            if decide (3 ≤ r_failed_attempts row.2 + 1) then
              let d := update_account d row.1 [kw_blocked 1] in
              (with_log (with_db st d) (log_card_blocked card), rest, Some false)
            else auth_loop_io later rest card row (with_db st d)
      end
  end.

Definition authenticate_io (st : ATM) (lines : list string)
  : ATM * list string * option bool :=
  match lines with
  | [] => (st, [], None)
  | card :: rest =>
      match get_account_by_card (db st) card with
      | None => (with_log st (log_card_not_found card), rest, Some false)
      | Some row =>
          if truthy (r_blocked row.2) then
            (with_log st (log_blocked_login card), rest, Some false)
          else auth_loop_io (seq 0 3) rest card row st
      end
  end.

(** One choice of the main menu other than 9, with an account logged in.
    Choices 1, 2 and 3 only print. *)
Definition main_menu_choice (st : ATM) (choice : string) (rest : list string)
  : ATM * list string * ending :=
  if decide (choice = "1") then (st, rest, Returned)
  else if decide (choice = "2") then (st, rest, Returned)
  else if decide (choice = "3") then (st, rest, Returned)
  else if decide (choice = "4") then withdraw_cash_io st rest
  else if decide (choice = "5") then deposit_cash_io st rest
  else if decide (choice = "6") then transfer_funds_io st rest
  else if decide (choice = "7") then fast_cash_io st rest
  else if decide (choice = "8") then change_pin_io st rest
  else (st, rest, Returned).

(** [main_menu]: the choice is read before the check that somebody is
    logged in. *)
Fixpoint main_menu_loop (fuel : nat) (st : ATM) (lines : list string)
  : ATM * list string * ending :=
  match fuel with
  | O => (st, lines, Unfinished)
  | S fuel' =>
      match lines with
      | [] => (st, [], EndOfInput)
      | choice :: rest =>
          match current_account st with
          | None => (st, rest, Returned)
          | Some _ =>
              if decide (choice = "9") then (logout st, rest, Returned)
              else
                match main_menu_choice st choice rest with
                | (st', rest', Returned) => main_menu_loop fuel' st' rest'
                | stopped => stopped
                end
          end
      end
  end.

(** [admin_menu]: choices 2 and 3 only print. *)
Fixpoint admin_menu_loop (fuel : nat) (st : ATM) (lines : list string)
  : ATM * list string * ending :=
  match fuel with
  | O => (st, lines, Unfinished)
  | S fuel' =>
      match lines with
      | [] => (st, [], EndOfInput)
      | choice :: rest =>
          if decide (choice = "1") then
            match load_cash_io st rest with
            | (st', rest', Returned) => admin_menu_loop fuel' st' rest'
            | stopped => stopped
            end
          else if decide (choice = "4") then (st, rest, Returned)
          else admin_menu_loop fuel' st rest
      end
  end.

(** [run]. *)
Fixpoint run_loop (fuel : nat) (st : ATM) (lines : list string)
  : ATM * list string * ending :=
  match fuel with
  | O => (st, lines, Unfinished)
  | S fuel' =>
      match lines with
      | [] => (st, [], EndOfInput)
      | choice :: rest =>
          if decide (choice = "1") then
            match authenticate_io st rest with
            | (st', rest', None) => (st', rest', EndOfInput)
            | (st', rest', Some false) => run_loop fuel' st' rest'
            | (st', rest', Some true) =>
                match main_menu_loop fuel' st' rest' with
                | (st'', rest'', Returned) => run_loop fuel' st'' rest''
                | stopped => stopped
                end
            end
          else if decide (choice = "2") then
            match admin_menu_loop fuel' st rest with
            | (st', rest', Returned) => run_loop fuel' st' rest'
            | stopped => stopped
            end
          else if decide (choice = "3") then (st, rest, Returned)
          else run_loop fuel' st rest
      end
  end.

(** Every turn of a loop reads a line, so one unit of fuel more than
    there are lines is enough. *)
Definition main_menu (st : ATM) (lines : list string) :=
  main_menu_loop (S (length lines)) st lines.

Definition admin_menu (st : ATM) (lines : list string) :=
  admin_menu_loop (S (length lines)) st lines.

Definition run (st : ATM) (lines : list string) :=
  run_loop (S (length lines)) st lines.

(** The program: seed the database found on disk, then run the machine
    with nobody logged in. *)
Definition main (d : Database) (lg : list log_entry) (lines : list string)
  : option (ATM * list string * ending) :=
  d' ← populate d; Some (run (mk_atm d' lg None) lines).

End menus.

(** ** What the menus can do *)

(** [st'] is the state after some sequence of operations from [st]. *)
Definition reaches (st st' : ATM) : Prop :=
  ∃ ops : list operation, st' = run_operations st ops.

Section reaching.
Implicit Types (st : ATM).

Lemma reaches_refl st : reaches st st.
Proof. by exists []. Qed.

Lemma reaches_step st (o : operation) : reaches st (step st o).
Proof. by exists [o]. Qed.

Lemma reaches_trans st1 st2 st3 :
  reaches st1 st2 → reaches st2 st3 → reaches st1 st3.
Proof.
  intros [ops1 ->] [ops2 ->]. exists (ops1 ++ ops2).
  unfold run_operations. by rewrite foldl_app.
Qed.

Lemma auth_loop_ext attempts (p p' : nat → string) card
    (row : string * account_row) st :
  (∀ k, k ∈ attempts → p k = p' k) →
  auth_loop attempts p card row st = auth_loop attempts p' card row st.
Proof.
  revert st. induction attempts as [|k rest IH]; intros st Hext; [done|].
  cbn. rewrite (Hext k) by left. repeat case_decide; try done.
  apply IH. intros j Hj. apply Hext. by right.
Qed.

(** Further wrong PINs after a first one that did not block change
    nothing more. *)
Lemma auth_loop_wrong_again attempts (p : nat → string) card
    (row : string * account_row) st :
  (∀ k, k ∈ attempts → p k ≠ r_pin row.2) →
  r_failed_attempts row.2 + 1 < 3 →
  let d := update_account (db st) row.1
             [kw_failed_attempts (r_failed_attempts row.2 + 1)] in
  (auth_loop attempts p card row (with_db st d)).1 = with_db st d.
Proof.
  intros Hwrong Hlow d. destruct attempts as [|k rest]; [done|].
  rewrite auth_loop_wrong_pins by done. cbn [fst].
  subst d. by rewrite with_db_with_db, db_with_db, update_failed_attempts_twice.
Qed.

Lemma auth_loop_io_nil attempts card (row : string * account_row) st :
  (auth_loop_io attempts [] card row st).1.1 = st.
Proof. by destruct attempts. Qed.

(** The loop reading lines ends in a state that the loop of
    [authenticate] reaches for suitable PINs. *)
Lemma auth_loop_io_state attempts lines card (row : string * account_row) st :
  NoDup attempts → lines ≠ [] →
  ∃ pin_at : nat → string,
    (auth_loop_io attempts lines card row st).1.1
      = (auth_loop attempts pin_at card row st).1.
Proof.
  intros Hnodup. revert lines st.
  induction attempts as [|k later IH]; intros lines st Hlines.
  { by exists (λ _, ""). }
  destruct lines as [|typed rest]; [done|].
  apply NoDup_cons in Hnodup as [Hk Hnodup].
  cbn [auth_loop_io auth_loop].
  destruct (decide (typed = r_pin row.2)) as [Hright|Hwrong].
  { exists (λ _, typed). by rewrite decide_True. }
  destruct (decide (3 ≤ r_failed_attempts row.2 + 1)) as [Hhigh|Hlow].
  { exists (λ _, typed). by rewrite decide_False. }
  destruct rest as [|typed' rest'].
  - exists (λ _, typed). rewrite decide_False by done.
    rewrite auth_loop_io_nil. symmetry. apply auth_loop_wrong_again; [done|lia].
  - destruct (IH Hnodup (typed' :: rest')
                (with_db st (update_account (db st) row.1
                   [kw_failed_attempts (r_failed_attempts row.2 + 1)])))
      as [p Hp]; [done|].
    exists (λ j, if decide (j = k) then typed else p j).
    cbn beta. rewrite (decide_True (P := k = k)) by done.
    rewrite (decide_False (P := typed = r_pin row.2)) by done.
    rewrite Hp. f_equal. apply auth_loop_ext.
    intros j Hj. rewrite decide_False; [done|]. by intros ->.
Qed.
End reaching.

(** What an action of a menu does with the state, the lines and the way
    it ends: the state is reached by operations, no line is given back,
    and only a loop can be left unfinished. *)
Definition well_behaved (st : ATM) (lines : list string)
    (r : ATM * list string * ending) : Prop :=
  reaches st r.1.1 ∧ (length r.1.2 ≤ length lines)%nat ∧ r.2 ≠ Unfinished.

Section menu_facts.
Variable py_int : string → option Z.
Implicit Types (st : ATM) (lines : list string).

Lemma withdraw_cash_io_well_behaved st lines :
  well_behaved st lines (withdraw_cash_io py_int st lines).
Proof.
  unfold withdraw_cash_io.
  destruct (current_account st), lines as [|typed rest];
    repeat split; cbn; try done; try lia; try apply reaches_refl.
  apply (reaches_step st (OpWithdraw (py_int typed))).
Qed.

Lemma deposit_cash_io_well_behaved st lines :
  well_behaved st lines (deposit_cash_io py_int st lines).
Proof.
  unfold deposit_cash_io.
  destruct (current_account st), lines as [|typed rest];
    repeat split; cbn; try done; try lia; try apply reaches_refl.
  apply (reaches_step st (OpDeposit (py_int typed))).
Qed.

Lemma fast_cash_io_well_behaved st lines :
  well_behaved st lines (fast_cash_io py_int st lines).
Proof.
  unfold fast_cash_io.
  destruct (current_account st), lines as [|typed rest];
    repeat split; cbn; try done; try lia; try apply reaches_refl.
  apply (reaches_step st (OpFastCash (py_int typed))).
Qed.

Lemma load_cash_io_well_behaved st lines :
  well_behaved st lines (load_cash_io py_int st lines).
Proof.
  unfold load_cash_io.
  destruct lines as [|typed rest];
    repeat split; cbn; try done; try lia; try apply reaches_refl.
  apply (reaches_step st (OpLoadCash (py_int typed))).
Qed.

Lemma transfer_funds_io_well_behaved st lines :
  well_behaved st lines (transfer_funds_io py_int st lines).
Proof.
  unfold transfer_funds_io.
  destruct (current_account st); [|repeat split; try done; apply reaches_refl].
  destruct lines as [|target_acc rest];
    [repeat split; try done; apply reaches_refl|].
  destruct (get_account_by_no (db st) target_acc);
    [|repeat split; cbn; try done; try lia; apply reaches_refl].
  destruct rest as [|typed rest'];
    repeat split; cbn; try done; try lia; try apply reaches_refl.
  apply (reaches_step st (OpTransfer target_acc (py_int typed))).
Qed.

Lemma change_pin_io_well_behaved st lines :
  well_behaved st lines (change_pin_io st lines).
Proof.
  unfold change_pin_io.
  destruct (current_account st); [|repeat split; try done; apply reaches_refl].
  destruct lines as [|old_pin rest];
    [repeat split; try done; apply reaches_refl|].
  case_decide; [repeat split; cbn; try done; try lia; apply reaches_refl|].
  destruct rest as [|new_pin [|confirm_pin rest']];
    repeat split; cbn; try done; try lia; try apply reaches_refl.
  apply (reaches_step st (OpChangePin old_pin new_pin confirm_pin)).
Qed.

Lemma main_menu_choice_well_behaved st (choice : string) lines :
  well_behaved st lines (main_menu_choice py_int st choice lines).
Proof.
  unfold main_menu_choice.
  repeat case_decide;
    auto using withdraw_cash_io_well_behaved, deposit_cash_io_well_behaved,
      transfer_funds_io_well_behaved, fast_cash_io_well_behaved,
      change_pin_io_well_behaved;
    repeat split; try done; apply reaches_refl.
Qed.

Lemma auth_loop_io_lines attempts lines card (row : string * account_row) st :
  (length (auth_loop_io attempts lines card row st).1.2 ≤ length lines)%nat.
Proof.
  revert lines st. induction attempts as [|k later IH]; intros lines st; [done|].
  destruct lines as [|typed rest]; [done|]. cbn.
  repeat case_decide; cbn; try lia.
  etrans; [apply IH|lia].
Qed.

(** What [authenticate] returned says who is logged in. *)
Lemma auth_loop_io_account attempts lines card (row : string * account_row) st :
  match (auth_loop_io attempts lines card row st).2 with
  | Some true =>
      current_account (auth_loop_io attempts lines card row st).1.1
        = Some (Account_init row)
  | _ =>
      current_account (auth_loop_io attempts lines card row st).1.1
        = current_account st
  end.
Proof.
  revert lines st. induction attempts as [|k later IH]; intros lines st; [done|].
  destruct lines as [|typed rest]; [done|]. cbn.
  repeat case_decide; cbn; try done.
  apply (IH rest (with_db st _)).
Qed.

Lemma authenticate_io_facts st lines :
  reaches st (authenticate_io st lines).1.1 ∧
  (length (authenticate_io st lines).1.2 ≤ length lines)%nat ∧
  match (authenticate_io st lines).2 with
  | Some true => is_Some (current_account (authenticate_io st lines).1.1)
  | _ => current_account (authenticate_io st lines).1.1 = current_account st
  end.
Proof.
  unfold authenticate_io.
  destruct lines as [|card rest]; [by split; [apply reaches_refl|]|].
  destruct (get_account_by_card (db st) card) as [row|] eqn:Hget.
  - destruct (truthy (r_blocked row.2)) eqn:Hblocked.
    + split; [|by split; cbn; [lia|]].
      exists [OpAuthenticate card (λ _, "")]. cbn. unfold authenticate.
      by rewrite Hget, Hblocked.
    + split; [|split].
      * destruct rest as [|typed rest'].
        { rewrite auth_loop_io_nil. apply reaches_refl. }
        destruct (auth_loop_io_state (seq 0 3) (typed :: rest') card row st)
          as [p Hp]; [apply NoDup_seq|done|].
        exists [OpAuthenticate card p]. cbn. unfold authenticate.
        by rewrite Hget, Hblocked.
      * etrans; [apply auth_loop_io_lines|]. cbn. lia.
      * pose proof (auth_loop_io_account (seq 0 3) rest card row st) as Hacct.
        by destruct (auth_loop_io (seq 0 3) rest card row st).2 as [[|]|].
  - split; [|by split; cbn; [lia|]].
    exists [OpAuthenticate card (λ _, "")]. cbn. unfold authenticate.
    by rewrite Hget.
Qed.
End menu_facts.

Ltac nothing_happens :=
  split_and!; cbn; try done; try apply reaches_refl; try lia.

Section loops.
Variable py_int : string → option Z.
Implicit Types (st : ATM) (lines : list string) (fuel : nat).

Lemma main_menu_loop_facts fuel st lines :
  let r := main_menu_loop py_int fuel st lines in
  reaches st r.1.1 ∧ (length r.1.2 ≤ length lines)%nat ∧
  ((length lines < fuel)%nat → r.2 ≠ Unfinished) ∧
  (r.2 = Returned → current_account r.1.1 = None).
Proof.
  revert st lines. induction fuel as [|fuel IH]; intros st lines; cbn zeta.
  { nothing_happens. }
  destruct lines as [|choice rest]; cbn [main_menu_loop].
  { nothing_happens. }
  destruct (current_account st) as [acct|] eqn:Ha.
  2:{ nothing_happens. }
  case_decide.
  { repeat split; cbn; try done; [apply (reaches_step st OpLogout)|lia]. }
  pose proof (main_menu_choice_well_behaved py_int st choice rest)
    as (Hreach & Hlen & Hend).
  destruct (main_menu_choice py_int st choice rest) as [[st' rest'] e].
  cbn in Hreach, Hlen, Hend.
  destruct e; [|by repeat split; cbn; try done; lia..].
  destruct (IH st' rest') as (Hreach' & Hlen' & Hend' & Hout').
  split; [by eapply reaches_trans|]. split; [cbn; lia|].
  split; [|done]. intros Hfuel. apply Hend'. cbn in Hfuel. lia.
Qed.

Lemma main_menu_loop_fuel fuel fuel' st lines :
  (length lines < fuel)%nat → (length lines < fuel')%nat →
  main_menu_loop py_int fuel st lines = main_menu_loop py_int fuel' st lines.
Proof.
  revert fuel' st lines.
  induction fuel as [|fuel IH]; intros fuel' st lines Hfuel Hfuel'; [lia|].
  destruct fuel' as [|fuel']; [lia|].
  destruct lines as [|choice rest]; [done|]. cbn [main_menu_loop].
  destruct (current_account st); [|done]. case_decide; [done|].
  pose proof (main_menu_choice_well_behaved py_int st choice rest)
    as (_ & Hlen & _).
  destruct (main_menu_choice py_int st choice rest) as [[st' rest'] e].
  cbn in Hlen, Hfuel, Hfuel'. destruct e; try done. apply IH; lia.
Qed.

(** [admin_menu] loads cash and nothing else. *)
Lemma admin_menu_loop_facts fuel st lines :
  let r := admin_menu_loop py_int fuel st lines in
  reaches st r.1.1 ∧ (length r.1.2 ≤ length lines)%nat ∧
  ((length lines < fuel)%nat → r.2 ≠ Unfinished) ∧
  accounts (db r.1.1) = accounts (db st) ∧
  transactions (db r.1.1) = transactions (db st) ∧
  current_account r.1.1 = current_account st ∧
  total_cash (db st) ≤ total_cash (db r.1.1) ∧
  (total_cash (db st) ≤ ATM_CASH_LIMIT → total_cash (db r.1.1) ≤ ATM_CASH_LIMIT).
Proof.
  revert st lines. induction fuel as [|fuel IH]; intros st lines; cbn zeta.
  { nothing_happens. }
  destruct lines as [|choice rest]; cbn [admin_menu_loop].
  { nothing_happens. }
  case_decide.
  - unfold load_cash_io. destruct rest as [|typed rest'].
    { nothing_happens. }
    destruct (IH (load_cash st (py_int typed)).1 rest')
      as (Hreach & Hlen & Hend & Haccounts & Htrans & Hacct & Hcash & Hcap).
    assert (accounts (db (load_cash st (py_int typed)).1) = accounts (db st) ∧
            transactions (db (load_cash st (py_int typed)).1) = transactions (db st) ∧
            current_account (load_cash st (py_int typed)).1 = current_account st ∧
            total_cash (db st) ≤ total_cash (db (load_cash st (py_int typed)).1) ∧
            (total_cash (db st) ≤ ATM_CASH_LIMIT →
             total_cash (db (load_cash st (py_int typed)).1) ≤ ATM_CASH_LIMIT))
      as (Ha1 & Ht1 & Hc1 & Hm1 & Hl1).
    { unfold load_cash, get_atm_cash.
      destruct (py_int typed) as [amount|]; [|by split_and!; try lia].
      repeat case_decide; unfold update_atm_cash; cbn; split_and!;
        try done; lia. }
    split; [eapply reaches_trans; [apply (reaches_step st (OpLoadCash (py_int typed)))|done]|].
    split; [cbn; lia|]. split; [intros Hfuel; apply Hend; cbn in Hfuel; lia|].
    split_and!; try congruence; [lia|]. auto.
  - case_decide.
    { nothing_happens. }
    destruct (IH st rest)
      as (Hreach & Hlen & Hend & Haccounts & Htrans & Hacct & Hcash & Hcap).
    split; [done|]. split; [cbn; lia|].
    split; [intros Hfuel; apply Hend; cbn in Hfuel; lia|]. done.
Qed.

Lemma admin_menu_loop_fuel fuel fuel' st lines :
  (length lines < fuel)%nat → (length lines < fuel')%nat →
  admin_menu_loop py_int fuel st lines = admin_menu_loop py_int fuel' st lines.
Proof.
  revert fuel' st lines.
  induction fuel as [|fuel IH]; intros fuel' st lines Hfuel Hfuel'; [lia|].
  destruct fuel' as [|fuel']; [lia|].
  destruct lines as [|choice rest]; [done|]. cbn [admin_menu_loop].
  cbn in Hfuel, Hfuel'. case_decide.
  - unfold load_cash_io. destruct rest as [|typed rest']; [done|].
    cbn in Hfuel, Hfuel'. apply IH; lia.
  - case_decide; [done|]. apply IH; lia.
Qed.

Lemma run_loop_facts fuel st lines :
  let r := run_loop py_int fuel st lines in
  reaches st r.1.1 ∧ (length r.1.2 ≤ length lines)%nat ∧
  ((length lines < fuel)%nat → r.2 ≠ Unfinished) ∧
  (current_account st = None → r.2 = Returned → current_account r.1.1 = None).
Proof.
  revert st lines. induction fuel as [|fuel IH]; intros st lines; cbn zeta.
  { nothing_happens. }
  destruct lines as [|choice rest]; cbn [run_loop].
  { nothing_happens. }
  case_decide.
  { destruct (authenticate_io_facts st rest) as (Hreach & Hlen & Hacct).
    destruct (authenticate_io st rest) as [[st' rest'] [[|]|]];
      cbn in Hreach, Hlen, Hacct.
    - destruct (main_menu_loop_facts fuel st' rest')
        as (Hreach1 & Hlen1 & Hend1 & Hout1).
      destruct (main_menu_loop py_int fuel st' rest') as [[st'' rest''] e].
      cbn in Hreach1, Hlen1, Hend1, Hout1.
      destruct e.
      + destruct (IH st'' rest'') as (Hreach2 & Hlen2 & Hend2 & Hout2).
        split; [eauto using reaches_trans|]. split; [cbn; lia|].
        split; [intros Hfuel; apply Hend2; cbn in Hfuel; lia|].
        intros _. by apply Hout2, Hout1.
      + split; [eauto using reaches_trans|]. split; [cbn; lia|]. by split.
      + split; [eauto using reaches_trans|]. split; [cbn; lia|].
        split; [|done]. intros Hfuel. apply Hend1. cbn in Hfuel. lia.
    - destruct (IH st' rest') as (Hreach2 & Hlen2 & Hend2 & Hout2).
      split; [eauto using reaches_trans|]. split; [cbn; lia|].
      split; [intros Hfuel; apply Hend2; cbn in Hfuel; lia|].
      intros Hnone. apply Hout2. by rewrite Hacct.
    - split; [done|]. split; [cbn; lia|]. by split. }
  case_decide.
  { destruct (admin_menu_loop_facts fuel st rest)
      as (Hreach1 & Hlen1 & Hend1 & _ & _ & Hacct1 & _).
    destruct (admin_menu_loop py_int fuel st rest) as [[st' rest'] e].
    cbn in Hreach1, Hlen1, Hend1, Hacct1.
    destruct e.
    - destruct (IH st' rest') as (Hreach2 & Hlen2 & Hend2 & Hout2).
      split; [eauto using reaches_trans|]. split; [cbn; lia|].
      split; [intros Hfuel; apply Hend2; cbn in Hfuel; lia|].
      intros Hnone. apply Hout2. by rewrite Hacct1.
    - split; [done|]. split; [cbn; lia|]. by split.
    - split; [done|]. split; [cbn; lia|].
      split; [|done]. intros Hfuel. apply Hend1. cbn in Hfuel. lia. }
  case_decide.
  { nothing_happens. }
  destruct (IH st rest) as (Hreach2 & Hlen2 & Hend2 & Hout2).
  split; [done|]. split; [cbn; lia|].
  split; [intros Hfuel; apply Hend2; cbn in Hfuel; lia|done].
Qed.

Lemma run_loop_fuel fuel fuel' st lines :
  (length lines < fuel)%nat → (length lines < fuel')%nat →
  run_loop py_int fuel st lines = run_loop py_int fuel' st lines.
Proof.
  revert fuel' st lines.
  induction fuel as [|fuel IH]; intros fuel' st lines Hfuel Hfuel'; [lia|].
  destruct fuel' as [|fuel']; [lia|].
  destruct lines as [|choice rest]; [done|]. cbn [run_loop].
  cbn in Hfuel, Hfuel'. case_decide.
  { destruct (authenticate_io_facts st rest) as (_ & Hlen & _).
    destruct (authenticate_io st rest) as [[st' rest'] [[|]|]]; cbn in Hlen.
    - rewrite (main_menu_loop_fuel fuel fuel') by lia.
      destruct (main_menu_loop_facts fuel' st' rest') as (_ & Hlen1 & _).
      destruct (main_menu_loop py_int fuel' st' rest') as [[st'' rest''] e].
      cbn in Hlen1. destruct e; try done. apply IH; lia.
    - apply IH; lia.
    - done. }
  case_decide.
  { rewrite (admin_menu_loop_fuel fuel fuel') by lia.
    destruct (admin_menu_loop_facts fuel' st rest) as (_ & Hlen1 & _).
    destruct (admin_menu_loop py_int fuel' st rest) as [[st' rest'] e].
    cbn in Hlen1. destruct e; try done. apply IH; lia. }
  case_decide; [done|]. apply IH; lia.
Qed.
End loops.

Lemma run_operations_invariant (st : ATM) (ops : list operation) :
  engine_invariant st → engine_invariant (run_operations st ops).
Proof.
  revert st. induction ops as [|o ops IH]; intros st Hst; [done|].
  cbn. by apply IH, step_invariant.
Qed.

Lemma add_account_keeps_balances_nonneg (d d' : Database)
    (no holder card secret : string) (opening : Z) :
  add_account d no holder card secret opening = Some d' →
  0 ≤ opening →
  map_Forall (λ _ row, 0 ≤ r_balance row) (accounts d) →
  map_Forall (λ _ row, 0 ≤ r_balance row) (accounts d') ∧
  total_cash d' = total_cash d.
Proof.
  intros (_ & _ & ->)%add_account_Some Hopening Hrows.
  split; [|done]. by apply map_Forall_insert_2.
Qed.

Lemma populate_keeps_balances_nonneg (d d' : Database) :
  populate d = Some d' →
  map_Forall (λ _ row, 0 ≤ r_balance row) (accounts d) →
  map_Forall (λ _ row, 0 ≤ r_balance row) (accounts d') ∧
  total_cash d' = total_cash d.
Proof.
  unfold populate. intros Hpop Hrows.
  destruct (decide (is_Some (get_account_by_card d "1234567890")));
    cbn in Hpop.
  - destruct (decide (is_Some (get_account_by_card d "9876543210"))).
    + by injection Hpop as <-.
    + by eapply add_account_keeps_balances_nonneg.
  - destruct (add_account d "1001" "Alice" "1234567890" "1111" 100000)
      as [d1|] eqn:Hd1; [|done]. cbn in Hpop.
    destruct (add_account_keeps_balances_nonneg _ _ _ _ _ _ _ Hd1)
      as (Hrows1 & Hcash1); [lia|done|].
    destruct (decide (is_Some (get_account_by_card d1 "9876543210"))).
    + by injection Hpop as <-.
    + destruct (add_account_keeps_balances_nonneg _ _ _ _ _ _ _ Hpop)
        as (Hrows2 & Hcash2); [lia|done|].
      split; [done|congruence].
Qed.

Section program.
Variable py_int : string → option Z.
Implicit Types (st : ATM) (lines : list string).

(** X20. [run] comes to an end on every finite input: given more fuel
    than there are lines, the loop ends by returning or at the end of the
    input, never for lack of fuel, with the same result whatever the
    amount of fuel, and it hands back no more lines than it was given. *)
Theorem run_comes_to_an_end st lines (fuel : nat) :
  (length lines < fuel)%nat →
  run_loop py_int fuel st lines = run py_int st lines ∧
  (run py_int st lines).2 ≠ Unfinished ∧
  (length (run py_int st lines).1.2 ≤ length lines)%nat.
Proof.
  intros Hfuel. unfold run.
  destruct (run_loop_facts py_int (S (length lines)) st lines)
    as (_ & Hlen & Hend & _).
  split; [apply run_loop_fuel; lia|]. split; [apply Hend; lia|done].
Qed.

(** X21. Whatever is typed, [run] does nothing to the state that a
    sequence of the operations [authenticate], [withdraw_cash],
    [deposit_cash], [transfer_funds], [fast_cash], [change_pin], logging
    out and [load_cash] does not do; so it keeps every stored balance and
    the balance of the account object at 0 or more and the machine's cash
    between 0 and [ATM_CASH_LIMIT], also when the input ends in the middle
    of a menu. *)
Theorem run_does_only_the_operations st lines :
  (∃ ops : list operation, (run py_int st lines).1.1 = run_operations st ops) ∧
  (balances_nonneg st ∧ cash_in_range st →
   balances_nonneg (run py_int st lines).1.1 ∧
   cash_in_range (run py_int st lines).1.1).
Proof.
  destruct (run_loop_facts py_int (S (length lines)) st lines)
    as ([ops Hops] & _).
  split; [exists ops; exact Hops|]. intros Hst.
  unfold run. rewrite Hops. by apply run_operations_invariant.
Qed.

(** X22. Nobody stays logged in: when [main_menu] returns, no account is
    logged in, and so when [run], started with nobody logged in, returns,
    nobody is logged in. *)
Theorem menus_end_logged_out st lines :
  ((main_menu py_int st lines).2 = Returned →
   current_account (main_menu py_int st lines).1.1 = None) ∧
  (current_account st = None → (run py_int st lines).2 = Returned →
   current_account (run py_int st lines).1.1 = None).
Proof.
  split.
  - by destruct (main_menu_loop_facts py_int (S (length lines)) st lines)
      as (_ & _ & _ & Hout).
  - by destruct (run_loop_facts py_int (S (length lines)) st lines)
      as (_ & _ & _ & Hout).
Qed.

(** X23. The admin menu, which asks for no card and no PIN, can only
    load cash: whatever is typed, it leaves the accounts table, the
    transactions table and the logged-in account as they were, never
    lowers the machine's cash and never raises it above [ATM_CASH_LIMIT]
    when it was within it. *)
Theorem admin_menu_only_loads_cash st lines :
  let r := admin_menu py_int st lines in
  accounts (db r.1.1) = accounts (db st) ∧
  transactions (db r.1.1) = transactions (db st) ∧
  current_account r.1.1 = current_account st ∧
  total_cash (db st) ≤ total_cash (db r.1.1) ∧
  (total_cash (db st) ≤ ATM_CASH_LIMIT → total_cash (db r.1.1) ≤ ATM_CASH_LIMIT) ∧
  r.2 ≠ Unfinished.
Proof.
  destruct (admin_menu_loop_facts py_int (S (length lines)) st lines)
    as (_ & _ & Hend & Haccounts & Htrans & Hacct & Hcash & Hcap).
  split_and!; try done. apply Hend. lia.
Qed.

(** X24. The whole program, from the seeding of the demo accounts to the
    end of [run]: on a database whose balances are 0 or more and whose
    cash is within the limit, whatever is typed and however the run ends
    (by choice 3 or at the end of the input), the final balances are 0 or
    more and the machine's cash is between 0 and [ATM_CASH_LIMIT]. *)
Theorem program_keeps_the_books_sound (d : Database) (lg : list log_entry)
    lines (r : ATM * list string * ending) :
  main py_int d lg lines = Some r →
  map_Forall (λ _ row, 0 ≤ r_balance row) (accounts d) →
  0 ≤ total_cash d ≤ ATM_CASH_LIMIT →
  balances_nonneg r.1.1 ∧ cash_in_range r.1.1 ∧ r.2 ≠ Unfinished.
Proof.
  unfold main. intros Hmain Hrows Hcash.
  destruct (populate d) as [d'|] eqn:Hpop; [|done]. injection Hmain as <-.
  destruct (populate_keeps_balances_nonneg d d' Hpop Hrows) as (Hrows' & Hcash').
  destruct (run_loop_facts py_int (S (length lines)) (mk_atm d' lg None) lines)
    as ([ops Hops] & _ & Hend & _).
  assert (engine_invariant (mk_atm d' lg None)) as Hinv.
  { apply engine_invariant_intro; [done|done|]. by rewrite Hcash'. }
  apply (run_operations_invariant _ ops) in Hinv as [Hbal Hrange].
  unfold run. split_and!; [by rewrite Hops|by rewrite Hops|].
  apply Hend. lia.
Qed.
End program.

(** * The added theorems at work on the sample data *)

(** For the examples, [int()] on plain decimal numerals, which is all
    that is typed in them; the theorems above hold for [int()] itself. *)
Definition digit_value (c : Ascii.ascii) : option Z :=
  let n := Z.of_N (Ascii.N_of_ascii c) in
  if decide (48 ≤ n ≤ 57) then Some (n - 48) else None.

Fixpoint digits_value (s : string) (acc : Z) : option Z :=
  match s with
  | EmptyString => Some acc
  | String c s' => d ← digit_value c; digits_value s' (10 * acc + d)
  end.

Definition decimal (s : string) : option Z :=
  match s with
  | EmptyString => None
  | _ => digits_value s 0
  end.

(** A session at the keyboard: Alice logs in, withdraws 20000, picks
    fast cash 2, logs out; the admin loads 1000; the program is left. *)
Definition sample_script : list string :=
  ["1"; "1234567890"; "1111"; "4"; "20000"; "7"; "2"; "9";
   "2"; "1"; "1000"; "4"; "3"].

Lemma cards_unique_two_rows (d : Database) (no1 no2 : string)
    (r1 r2 : account_row) :
  accounts d = <[no1 := r1]> (<[no2 := r2]> ∅) →
  r_card_no r1 ≠ r_card_no r2 → cards_unique d.
Proof.
  intros Hd Hcards k1 k2 q1 q2. rewrite Hd, !lookup_insert, !lookup_empty.
  repeat case_decide; try done; intros; simplify_eq; congruence.
Qed.

Lemma sample_db_cards_unique : cards_unique sample_db.
Proof. by apply (cards_unique_two_rows _ "1001" "1002" alice bob). Qed.

Lemma alice_session_in_sync : in_sync alice_session.
Proof.
  intros a Ha. rewrite alice_session_account in Ha. injection Ha as <-.
  exists alice. split; [vm_compute; reflexivity|done].
Qed.

Lemma X2_locked_bob_is_refused :
  authenticate (run_operations bob_locked_out [OpLoadCash (Some 1); OpLogout])
               "9876543210" (λ _, "2222")
  = (with_log (run_operations bob_locked_out [OpLoadCash (Some 1); OpLogout])
              (log_blocked_login "9876543210"), CardBlocked).
Proof.
  apply (blocked_card_is_refused_for_good bob_locked_out
           [OpLoadCash (Some 1); OpLogout] "1002"
           (mk_row "Bob" "9876543210" "2222" 50000 1 3) (λ _, "2222")).
  - apply (cards_unique_two_rows _ "1001" "1002" alice
             (mk_row "Bob" "9876543210" "2222" 50000 1 3));
      [vm_compute; reflexivity|discriminate].
  - vm_compute. reflexivity.
  - simpl. lia.
Defined.

Lemma X3_alice_logged_in_with_her_pin :
  ∃ no row,
    get_account_by_card (db sample_atm) "1234567890" = Some (no, row) ∧
    accounts (db sample_atm) !! no = Some row ∧ r_card_no row = "1234567890" ∧
    r_blocked row = 0 ∧
    (∃ k, (k < 3)%nat ∧ (λ _ : nat, "1111") k = r_pin row) ∧
    current_account (authenticate sample_atm "1234567890" (λ _, "1111")).1
      = Some (Account_init (no, row)).
Proof.
  apply (authenticate_needs_the_right_pin sample_atm "1234567890" (λ _, "1111")).
  vm_compute. reflexivity.
Defined.

Lemma X4_one_failure_counted :
  accounts (db (authenticate sample_atm "1234567890" wrong_pin).1) !! "1001"
    = Some (mk_row "Alice" "1234567890" "1111" 100000 0 1).
Proof.
  destruct (authenticate_counts_one_failure_per_call sample_atm "1234567890"
              "1001" alice wrong_pin) as (_ & Hrow & _).
  - vm_compute. reflexivity.
  - reflexivity.
  - simpl. lia.
  - intros k _. discriminate.
  - exact Hrow.
Defined.

Lemma X5_third_failed_call_blocks :
  let st := (authenticate (authenticate sample_atm "9876543210" wrong_pin).1
               "9876543210" wrong_pin).1 in
  (authenticate st "9876543210" wrong_pin).2 = BlockedAfterFailures.
Proof.
  apply (authenticate_blocks_on_stored_counter _ "9876543210" "1002"
           (mk_row "Bob" "9876543210" "2222" 50000 0 2) wrong_pin).
  - vm_compute. reflexivity.
  - reflexivity.
  - simpl. lia.
  - discriminate.
Defined.

Lemma X6_bob_is_locked_out :
  accounts (db bob_locked_out) !! "1002"
    = Some (mk_row "Bob" "9876543210" "2222" 50000 1 3) ∧
  (authenticate bob_locked_out "9876543210" (λ _, "2222")).2 = CardBlocked.
Proof.
  destruct (three_failed_calls_block_the_card sample_atm "1002" bob
              wrong_pin wrong_pin wrong_pin (λ _, "2222"))
    as (_ & _ & _ & Hrow & Hrefused).
  - apply sample_db_cards_unique.
  - vm_compute. reflexivity.
  - reflexivity.
  - reflexivity.
  - intros k _. discriminate.
  - intros k _. discriminate.
  - discriminate.
  - split; [exact Hrow|exact Hrefused].
Defined.

Lemma X7_second_try_logs_in :
  let pins := λ k : nat, if decide (k = 0%nat) then "0000" else "1111" in
  auth_returns (authenticate sample_atm "1234567890" pins).2 = true ∧
  in_sync (authenticate sample_atm "1234567890" pins).1.
Proof.
  destruct (authenticate_right_pin_logs_in sample_atm "1234567890" "1001" alice
              (λ k : nat, if decide (k = 0%nat) then "0000" else "1111") 1)
    as (Hret & _ & _ & Hsync).
  - vm_compute. reflexivity.
  - reflexivity.
  - lia.
  - right. simpl. lia.
  - intros j Hj. assert (j = 0%nat) as -> by lia. discriminate.
  - reflexivity.
  - split; [exact Hret|exact Hsync].
Defined.

Lemma X8_alice_stays_in_sync :
  Forall in_sync
    (trace alice_session
       [OpWithdraw (Some 20000); OpTransfer "1002" (Some 5000);
        OpChangePin "1111" "4321" "4321"; OpFastCash (Some 1)]).
Proof.
  apply (account_object_stays_in_sync alice_session).
  - apply alice_session_in_sync.
  - vm_compute. split_and!; try done; by intros [=].
Defined.

Lemma X9_alice_pays_herself :
  get_balance (db (transfer_funds alice_session "1001" (Some 30000)).1) "1001"
    = Some 130000 ∧
  ¬ in_sync (transfer_funds alice_session "1001" (Some 30000)).1.
Proof.
  destruct (transfer_to_self_credits_the_row alice_session alice_account 30000)
    as (_ & _ & Hstored & _ & _ & Hbroken).
  - apply alice_session_account.
  - apply alice_session_in_sync.
  - simpl. lia.
  - split; [exact Hstored|exact Hbroken].
Defined.

Lemma X10_sample_books :
  let ops := [OpWithdraw (Some 20000); OpTransfer "1002" (Some 5000);
              OpDeposit (Some 300); OpFastCash (Some 3)] in
  total_balances (accounts (db (run_operations alice_session ops)))
    - total_cash (db (run_operations alice_session ops))
  = total_balances (accounts (db alice_session)) - total_cash (db alice_session).
Proof.
  apply (balances_move_with_the_cash alice_session).
  - apply alice_session_in_sync.
  - vm_compute. split_and!; try done;
      intros [Hself|[typed Hload]]; done || by injection Hself.
Defined.

Lemma X12_sample_ledger :
  Forall well_formed_transaction
    (transactions (db (run_operations alice_session
       [OpWithdraw (Some 20000); OpTransfer "1002" (Some 5000); OpFastCash (Some 0)]))).
Proof.
  destruct (recorded_transactions_are_well_formed alice_session
              [OpWithdraw (Some 20000); OpTransfer "1002" (Some 5000);
               OpFastCash (Some 0)]) as [Hall _]; [|exact Hall].
  vm_compute. constructor.
Defined.

Lemma X13_refused_withdrawal :
  step alice_session (OpWithdraw (Some 60000)) = alice_session.
Proof.
  apply (refused_operation_changes_nothing alice_session
           (OpWithdraw (Some 60000)) ExceedsDailyLimit).
  - vm_compute. reflexivity.
  - reflexivity.
Defined.

Lemma X14_fast_cash_option_two :
  (fast_cash alice_session (Some 2)).2 = (withdraw_cash alice_session (Some 1000)).2 ∧
  accounts (db (fast_cash alice_session (Some 2)).1)
    = accounts (db (withdraw_cash alice_session (Some 1000)).1).
Proof.
  destruct (fast_cash_is_a_withdrawal alice_session alice_account 1 1000)
    as (Hmsg & Haccounts & _).
  - apply alice_session_account.
  - reflexivity.
  - split; [exact Hmsg|exact Haccounts].
Defined.

Lemma X15_sample_round_trip :
  let st1 := (withdraw_cash alice_session (Some 20000)).1 in
  (deposit_cash st1 (Some 20000)).2 = Deposited 20000 100000 ∧
  accounts (db (deposit_cash st1 (Some 20000)).1) = accounts (db alice_session) ∧
  total_cash (db (deposit_cash st1 (Some 20000)).1) = total_cash (db alice_session).
Proof.
  destruct (deposit_undoes_withdrawal alice_session alice_account 20000)
    as (Hmsg & Haccounts & Hcash & _).
  - apply alice_session_account.
  - apply alice_session_in_sync.
  - vm_compute. discriminate.
  - vm_compute. reflexivity.
  - split; [exact Hmsg|]. split; [exact Haccounts|exact Hcash].
Defined.

Definition with_carol : Database :=
  mk_db (<["1003" := mk_row "Carol" "5555555555" "3333" 700 0 0]> (accounts sample_db))
        [] ATM_CASH_LIMIT.

Lemma X16_carol_can_be_read_back :
  get_account_by_no with_carol "1003"
    = Some ("1003", mk_row "Carol" "5555555555" "3333" 700 0 0) ∧
  get_account_by_card with_carol "5555555555"
    = Some ("1003", mk_row "Carol" "5555555555" "3333" 700 0 0).
Proof.
  destruct (add_account_can_be_read_back sample_db "1003" "Carol" "5555555555"
              "3333" 700 with_carol) as (Hno & _ & _ & _ & Hcard).
  - vm_compute. reflexivity.
  - split; [exact Hno|]. by destruct (Hcard sample_db_cards_unique).
Defined.

Lemma X18_carol_logs_in :
  current_account
    (authenticate (with_db sample_atm with_carol) "5555555555" (λ _, "3333")).1
  = Some (mk_account "1003" "Carol" "5555555555" "3333" 700 0 0).
Proof.
  destruct (new_account_can_log_in sample_atm "1003" "Carol" "5555555555" "3333"
              700 with_carol (λ _, "3333")) as [_ Hacct].
  - vm_compute. reflexivity.
  - apply sample_db_cards_unique.
  - reflexivity.
  - exact Hacct.
Defined.

Lemma X19_seeding_again : populate sample_db = Some sample_db.
Proof. apply (populate_twice new_database sample_db). vm_compute. reflexivity. Defined.

Lemma X20_sample_session_ends :
  run_loop decimal 100 sample_atm sample_script = run decimal sample_atm sample_script ∧
  (run decimal sample_atm sample_script).2 ≠ Unfinished.
Proof.
  destruct (run_comes_to_an_end decimal sample_atm sample_script 100)
    as (Hfuel & Hend & _).
  - vm_compute. lia.
  - split; [exact Hfuel|exact Hend].
Defined.

Lemma X24_sample_session_is_sound :
  balances_nonneg (run decimal sample_atm sample_script).1.1 ∧
  cash_in_range (run decimal sample_atm sample_script).1.1.
Proof.
  destruct (program_keeps_the_books_sound decimal new_database [] sample_script
              (run decimal sample_atm sample_script)) as (Hbal & Hcash & _).
  - vm_compute. reflexivity.
  - apply map_Forall_empty.
  - vm_compute. split; discriminate.
  - split; [exact Hbal|exact Hcash].
Defined.

Lemma X25_fast_cash_option_seven :
  fast_cash alice_session (Some 7) = (alice_session, InvalidOption) ∧
  fast_cash alice_session None = (alice_session, InvalidOption).
Proof.
  split.
  - apply (fast_cash_rejected alice_session alice_account (Some 7));
      [apply alice_session_account|].
    intros choice [= <-]. right. lia.
  - apply (fast_cash_rejected alice_session alice_account None);
      [apply alice_session_account|]. intros choice [=].
Defined.

Lemma X26_alice_pays_bob :
  let st' := (transfer_funds alice_session "1002" (Some 30000)).1 in
  get_balance (db st') "1001" = Some 70000 ∧
  get_balance (db st') "1002" = Some 80000 ∧
  total_cash (db st') = total_cash (db alice_session).
Proof.
  apply (transfer_funds_between_two_accounts alice_session alice_account "1002"
           bob 30000).
  - apply alice_session_account.
  - vm_compute. reflexivity.
  - vm_compute. reflexivity.
  - discriminate.
  - simpl. lia.
Defined.

(** What the sample session leaves behind. *)
Example sample_session_result :
  let r := run decimal sample_atm sample_script in
  r.2 = Returned ∧ r.1.2 = [] ∧ current_account r.1.1 = None ∧
  get_balance (db r.1.1) "1001" = Some 79000 ∧
  total_cash (db r.1.1) = 180000 ∧
  map t_type (transactions (db r.1.1)) = ["Withdraw"; "Fast Cash"].
Proof. vm_compute. done. Qed.
